(** * pypiserver cache: a shallow embedding of [pypiserver/cache.py]

    The module caches the results of two caller-supplied producers (a
    directory listing and a file digest), invalidates them from watchdog
    events, and can persist the listing tier with pickle.  Python objects
    are embedded as follows:

    - a [dict] is a [gmap], a [set] a [gset];
    - [t.Union[Path, str]] is the sum [PathOrStr]; a [Path] and a [str] are
      different dictionary keys even when they spell the same directory;
    - a method is a function in the monad [M], which threads the manager
      ([self]), may raise, may block on a lock already held, and records the
      calls that leave the manager (producer calls and [observer.schedule]);
    - [print] and [time.monotonic] have no effect on the manager and are
      left out. *)

From Stdlib Require Import Ascii.
From stdpp Require Import base gmap sets list strings.

(** ** Paths and dictionary keys *)

(** A [pathlib.Path], identified by its string form ([str(p)]). *)
Record Path := mkPath { path_str : string }.

#[global] Instance Path_eq_dec : EqDecision Path.
Proof. solve_decision. Defined.

#[global] Instance Path_countable : Countable Path.
Proof. by apply (inj_countable' path_str mkPath); intros []. Defined.

(** [t.Union[Path, str]]: what callers pass as [root]. *)
Inductive PathOrStr :=
  | AsStr (s : string)
  | AsPath (p : Path).

#[global] Instance PathOrStr_eq_dec : EqDecision PathOrStr.
Proof. solve_decision. Defined.

#[global] Instance PathOrStr_countable : Countable PathOrStr.
Proof.
  apply (inj_countable'
    (λ k, match k with AsStr s => inl s | AsPath p => inr p end)
    (λ x, match x with inl s => AsStr s | inr p => AsPath p end)).
  by intros [].
Defined.

(** [str(root)] *)
Definition str (root : PathOrStr) : string :=
  match root with
  | AsStr s => s
  | AsPath p => path_str p
  end.

(** ** [os.path.dirname] (posixpath) *)

Definition is_sep (c : Ascii.ascii) : bool := bool_decide (c = "/"%char).

Fixpoint drop_while {A} (f : A → bool) (l : list A) : list A :=
  match l with
  | [] => []
  | x :: l' => if f x then drop_while f l' else l
  end.

(** [head = p[:p.rfind('/') + 1]]; trailing separators are stripped from
    [head] unless it consists of separators only. *)
Definition dirname_chars (p : list Ascii.ascii) : list Ascii.ascii :=
  let head := rev (drop_while (λ c, negb (is_sep c)) (rev p)) in
  if forallb is_sep head then head
  else rev (drop_while is_sep (rev head)).

Definition dirname (fpath : string) : string :=
  String.string_of_list_ascii (dirname_chars (String.list_ascii_of_string fpath)).

(** ** Exceptions and outcomes *)

Inductive Exception :=
  | KeyError
  | RuntimeError (msg : string)
  | TypeError
  | OSError (what : string)
  | UnpicklingError
  | OtherError (what : string).

(** How a call ends: it returns, it raises, or it waits forever for a
    [threading.Lock] that is never released. *)
Inductive Outcome (A : Type) :=
  | Returned (a : A)
  | Raised (e : Exception)
  | Blocked.
Arguments Returned {A} a.
Arguments Raised {A} e.
Arguments Blocked {A}.

(** ** The watchdog side *)

(** [_EventHandler(cache, root)]; [cache] is the manager that owns the
    observer, so only [root] is stored. *)
Record _EventHandler := { eh_root : string }.

(** One [observer.schedule(handler, path, recursive=...)] subscription. *)
Record ObservedWatch := {
  watch_handler : _EventHandler;
  watch_path : string;
  watch_recursive : bool
}.

#[global] Instance _EventHandler_eq_dec : EqDecision _EventHandler.
Proof. solve_decision. Defined.

#[global] Instance ObservedWatch_eq_dec : EqDecision ObservedWatch.
Proof. solve_decision. Defined.

(** A watchdog event, with the attributes [dispatch] reads. *)
Record FileSystemEvent := {
  is_directory : bool;
  event_type : string;
  src_path : string;
  dest_path : string
}.

(** Calls that leave the manager, in the order they are made. *)
Inductive Effect :=
  | Ev_schedule (w : ObservedWatch)
  | Ev_listdir (p : Path)
  | Ev_digest (fpath hash_algo : string).

(** What the import at the top of the module and [Observer().start()] do
    on this host. *)
Record Platform := {
  ENABLE_CACHING : bool;
  observer_start : option Exception
}.

Inductive Lock := watch_lock | digest_lock | listdir_lock.


(** ** The file system seen by [open], [Path.exists] and pickle *)

(** What a path names: a file that can be opened, or something that exists
    but that [open] refuses (a directory, a file without permission). *)
Inductive Node (bytes : Type) :=
  | File (data : bytes)
  | NoAccess.
Arguments File {bytes} data.
Arguments NoAccess {bytes}.

Section Cache.

Set Default Proof Using "Type".

Context {PkgFile : Type}.

(** [pathlib]'s normalisation of a string into a path, and [pickle] on
    listing dictionaries: library code, taken as parameters.
    [pickle_loads] is [None] where [pickle.load] raises. *)
Variable pathlib_normalize : string → string.
Context {bytes : Type}.
Variable pickle_dumps : gmap PathOrStr (list PkgFile) → bytes.
Variable pickle_loads : bytes → option (gmap PathOrStr (list PkgFile)).

(** What the operating system does with a name it cannot resolve at all
    ([ENAMETOOLONG], [EACCES] for a directory on the way): the error that
    [stat] and [open] fail with and that [Path.exists] lets through.  And
    what [pickle.dump] does when it raises: the exception, and the bytes
    it had written by then. *)
Variable stat_error : string → option Exception.
Variable pickle_dump_fails :
  gmap PathOrStr (list PkgFile) → option (Exception * bytes).

(** [Path(root)] *)
Definition Path_ (root : PathOrStr) : Path :=
  match root with
  | AsStr s => mkPath (pathlib_normalize s)
  | AsPath p => p
  end.

(** What [CacheFileManager.listdir] hands back: a stored list, or the
    [{}] default of [dict.get]. *)
Inductive PyIterable :=
  | AsList (v : list PkgFile)
  | EmptyDict.

(** The items obtained by iterating over the value. *)
Definition iterate (it : PyIterable) : list PkgFile :=
  match it with
  | AsList v => v
  | EmptyDict => []
  end.

(** ** The manager object

    [CacheFileManager] adds the last two fields; a plain [CacheManager]
    keeps them at their class defaults. *)
Record CacheManager := {
  listdir_cache : gmap PathOrStr (list PkgFile);
  digest_cache : gmap string (gmap string string);
  observer : list ObservedWatch;
  watched : gset string;
  watch_lock_held : bool;
  digest_lock_held : bool;
  listdir_lock_held : bool;
  pkg_index_file : option Path;
  using_index_file : bool
}.

Definition set_listdir_cache
    (f : gmap PathOrStr (list PkgFile) → gmap PathOrStr (list PkgFile))
    (self : CacheManager) : CacheManager :=
  {| listdir_cache := f (listdir_cache self);
     digest_cache := digest_cache self;
     observer := observer self;
     watched := watched self;
     watch_lock_held := watch_lock_held self;
     digest_lock_held := digest_lock_held self;
     listdir_lock_held := listdir_lock_held self;
     pkg_index_file := pkg_index_file self;
     using_index_file := using_index_file self |}.

Definition set_digest_cache
    (f : gmap string (gmap string string) → gmap string (gmap string string))
    (self : CacheManager) : CacheManager :=
  {| listdir_cache := listdir_cache self;
     digest_cache := f (digest_cache self);
     observer := observer self;
     watched := watched self;
     watch_lock_held := watch_lock_held self;
     digest_lock_held := digest_lock_held self;
     listdir_lock_held := listdir_lock_held self;
     pkg_index_file := pkg_index_file self;
     using_index_file := using_index_file self |}.

Definition set_observer (f : list ObservedWatch → list ObservedWatch)
    (self : CacheManager) : CacheManager :=
  {| listdir_cache := listdir_cache self;
     digest_cache := digest_cache self;
     observer := f (observer self);
     watched := watched self;
     watch_lock_held := watch_lock_held self;
     digest_lock_held := digest_lock_held self;
     listdir_lock_held := listdir_lock_held self;
     pkg_index_file := pkg_index_file self;
     using_index_file := using_index_file self |}.

Definition set_watched (f : gset string → gset string)
    (self : CacheManager) : CacheManager :=
  {| listdir_cache := listdir_cache self;
     digest_cache := digest_cache self;
     observer := observer self;
     watched := f (watched self);
     watch_lock_held := watch_lock_held self;
     digest_lock_held := digest_lock_held self;
     listdir_lock_held := listdir_lock_held self;
     pkg_index_file := pkg_index_file self;
     using_index_file := using_index_file self |}.

Definition held (l : Lock) (self : CacheManager) : bool :=
  match l with
  | watch_lock => watch_lock_held self
  | digest_lock => digest_lock_held self
  | listdir_lock => listdir_lock_held self
  end.

Definition set_lock (l : Lock) (b : bool) (self : CacheManager) : CacheManager :=
  {| listdir_cache := listdir_cache self;
     digest_cache := digest_cache self;
     observer := observer self;
     watched := watched self;
     watch_lock_held :=
       match l with watch_lock => b | _ => watch_lock_held self end;
     digest_lock_held :=
       match l with digest_lock => b | _ => digest_lock_held self end;
     listdir_lock_held :=
       match l with listdir_lock => b | _ => listdir_lock_held self end;
     pkg_index_file := pkg_index_file self;
     using_index_file := using_index_file self |}.

(** ** The method monad *)

Definition M (A : Type) : Type :=
  CacheManager → Outcome A * CacheManager * list Effect.

#[global] Instance M_ret : MRet M := λ A a self, (Returned a, self, []).

#[global] Instance M_bind : MBind M := λ A B f m self,
  match m self with
  | (Returned a, self1, t1) =>
      let '(r, self2, t2) := f a self1 in (r, self2, t1 ++ t2)
  | (Raised e, self1, t1) => (Raised e, self1, t1)
  | (Blocked, self1, t1) => (Blocked, self1, t1)
  end.

Definition get_self : M CacheManager := λ self, (Returned self, self, []).

Definition update (f : CacheManager → CacheManager) : M unit :=
  λ self, (Returned tt, f self, []).

Definition raise {A} (e : Exception) : M A := λ self, (Raised e, self, []).

(** A call to something outside the manager: it is logged, and ends the
    way the callee says. *)
Definition call_out {A} (ev : Effect) (r : Outcome A) : M A :=
  λ self, (r, self, [ev]).

(** [with lock: body].  [threading.Lock] is not reentrant: acquiring a held
    lock never returns.  The lock is released when the body returns or
    raises. *)
Definition with_lock {A} (l : Lock) (body : M A) : M A := λ self,
  if held l self then (Blocked, self, [])
  else
    match body (set_lock l true self) with
    | (Blocked, self', t) => (Blocked, self', t)
    | (r, self', t) => (r, set_lock l false self', t)
    end.

(** [try: body / except KeyError: handler] *)
Definition try_except_KeyError {A} (body handler : M A) : M A := λ self,
  match body self with
  | (Raised KeyError, self', t) =>
      let '(r, self'', t') := handler self' in (r, self'', t ++ t')
  | res => res
  end.

(** [d[k]] *)
Definition getitem `{Countable K} {V} (d : gmap K V) (k : K) : M V :=
  match d !! k with
  | Some v => mret v
  | None => raise KeyError
  end.

(** [d.setdefault(k, v)], as the new dictionary *)
Definition setdefault `{Countable K} {V} (k : K) (v : V) (d : gmap K V)
    : gmap K V :=
  match d !! k with
  | Some _ => d
  | None => <[k := v]> d
  end.

(** [observer.schedule(handler, path, recursive=recursive)] *)
Definition observer_schedule (handler : _EventHandler) (path : string)
    (recursive : bool) : M unit := λ self,
  let w := {| watch_handler := handler; watch_path := path;
              watch_recursive := recursive |} in
  (Returned tt, set_observer (λ ws, ws ++ [w]) self, [Ev_schedule w]).

(** ** [class CacheManager] *)

Definition CacheManager___init__ (host : Platform) : Outcome CacheManager :=
  if negb (ENABLE_CACHING host) then
    Raised (RuntimeError
      "Please install the extra cache requirements by running 'pip install pypiserver[cache]' to use the CachingFileBackend")
  else
    match observer_start host with
    | Some e => Raised e
    | None =>
        Returned {| listdir_cache := ∅;
                    digest_cache := ∅;
                    observer := [];
                    watched := ∅;
                    watch_lock_held := false;
                    digest_lock_held := false;
                    listdir_lock_held := false;
                    pkg_index_file := None;
                    using_index_file := false |}
    end.

Definition _watch (root : string) : M unit :=
  update (set_watched (λ w, w ∪ {[root]}));;
  observer_schedule {| eh_root := root |} root true.

Definition CacheManager_listdir (root : PathOrStr)
    (impl_fn : Path → Outcome (list PkgFile)) : M (list PkgFile) :=
  let root := str root in
  with_lock listdir_lock (
    try_except_KeyError
      (self ← get_self; getitem (listdir_cache self) (AsStr root))
      (with_lock watch_lock (
         self ← get_self;
         if decide (root ∈ watched self) then mret tt else _watch root);;
       v ← call_out (Ev_listdir (Path_ (AsStr root)))
                    (impl_fn (Path_ (AsStr root)));
       update (set_listdir_cache (<[AsStr root := v]>));;
       mret v)).

(** The local [cache] of [digest_file] is a reference to the inner
    dictionary stored under [hash_algo]; reading and writing through it
    reads and writes that inner dictionary in place. *)
Definition CacheManager_digest_file (fpath hash_algo : string)
    (impl_fn : string → string → Outcome string) : M string :=
  with_lock digest_lock (
    try_except_KeyError
      (self ← get_self; _ ← getitem (digest_cache self) hash_algo; mret tt)
      (update (set_digest_cache (setdefault hash_algo ∅)));;
    hit ← try_except_KeyError
      (self ← get_self;
       v ← getitem (default ∅ (digest_cache self !! hash_algo)) fpath;
       mret (Some v))
      (let root := dirname fpath in
       with_lock watch_lock (
         self ← get_self;
         if decide (root ∈ watched self) then mret tt else _watch root);;
       mret None);
    match hit with
    | Some v => mret v
    | None =>
        v ← call_out (Ev_digest fpath hash_algo) (impl_fn fpath hash_algo);
        update (set_digest_cache (λ d,
          <[hash_algo := <[fpath := v]> (default ∅ (d !! hash_algo))]> d));;
        mret v
    end).

Definition CacheManager_invalidate_root_cache (root : PathOrStr) : M unit :=
  with_lock listdir_lock (
    update (set_listdir_cache (delete (AsStr (str root))))).

(** ** [class CacheFileManager(CacheManager)] *)

(** [pkg_index_file.exists()]: [False] for a name nothing is stored
    under, [True] for one something is stored under; an error of [stat]
    other than the not-found ones is raised to the caller. *)
Definition exists_ (fs : gmap string (Node bytes)) (p : Path)
    : Outcome bool :=
  match stat_error (path_str p) with
  | Some e => Raised e
  | None => Returned (bool_decide (is_Some (fs !! path_str p)))
  end.

(** [open(p, 'rb')] followed by reading the stream *)
Definition open_rb (fs : gmap string (Node bytes)) (p : Path)
    : Outcome bytes :=
  match stat_error (path_str p) with
  | Some e => Raised e
  | None =>
      match fs !! path_str p with
      | None => Raised (OSError "FileNotFoundError")
      | Some NoAccess => Raised (OSError "PermissionError")
      | Some (File data) => Returned data
      end
  end.

(** [open(p, 'wb')]: whether the file opens; opening creates it or
    truncates it. *)
Definition open_wb (fs : gmap string (Node bytes)) (p : Path)
    : Outcome unit :=
  match stat_error (path_str p) with
  | Some e => Raised e
  | None =>
      match fs !! path_str p with
      | Some NoAccess => Raised (OSError "PermissionError")
      | _ => Returned tt
      end
  end.

(** [pickle.load(f)] *)
Definition pickle_load (data : bytes)
    : Outcome (gmap PathOrStr (list PkgFile)) :=
  match pickle_loads data with
  | Some d => Returned d
  | None => Raised UnpicklingError
  end.

Definition CacheFileManager___init__ (host : Platform)
    (fs : gmap string (Node bytes)) (pkg_index_file : option Path)
    : Outcome CacheManager :=
  match CacheManager___init__ host with
  | Returned self =>
      match pkg_index_file with
      | None => Returned self
      | Some p =>
          match exists_ fs p with
          | Returned false => Returned self
          | Returned true =>
              match open_rb fs p with
              | Returned data =>
                  match pickle_load data with
                  | Returned d =>
                      Returned
                        {| listdir_cache := d;
                           digest_cache := digest_cache self;
                           observer := observer self;
                           watched := watched self;
                           watch_lock_held := watch_lock_held self;
                           digest_lock_held := digest_lock_held self;
                           listdir_lock_held := listdir_lock_held self;
                           pkg_index_file := Some p;
                           using_index_file := true |}
                  | Raised _ => Returned self
                  | Blocked => Blocked
                  end
              | Raised _ => Returned self
              | Blocked => Blocked
              end
          | Raised e => Raised e
          | Blocked => Blocked
          end
      end
  | Raised e => Raised e
  | Blocked => Blocked
  end.

Definition CacheFileManager_listdir (root : PathOrStr)
    (impl_fn : Path → Outcome (list PkgFile)) : M PyIterable :=
  self ← get_self;
  if negb (using_index_file self) then
    v ← CacheManager_listdir root impl_fn; mret (AsList v)
  else
    mret (match listdir_cache self !! root with
          | Some v => AsList v
          | None => EmptyDict
          end).

Definition CacheFileManager_force_update_listdir_cache (root : PathOrStr)
    (impl_fn : Path → Outcome (list PkgFile)) : M (list PkgFile) :=
  with_lock listdir_lock (
    v ← call_out (Ev_listdir (Path_ root)) (impl_fn (Path_ root));
    update (set_listdir_cache (<[root := v]>));;
    mret v).

(** [with open(self.pkg_index_file, 'wb') as f: pickle.dump(...)]: how
    the call ends, and the file system after it.  [open(None, 'wb')] is a
    [TypeError].  Once the file is open it has been created or truncated:
    when [pickle.dump] then raises, the file holds what had been written
    and the exception leaves the method. *)
Definition CacheFileManager_serialize_listdir_cache (self : CacheManager)
    (fs : gmap string (Node bytes))
    : Outcome unit * gmap string (Node bytes) :=
  match pkg_index_file self with
  | None => (Raised TypeError, fs)
  | Some p =>
      match open_wb fs p with
      | Returned _ =>
          match pickle_dump_fails (listdir_cache self) with
          | Some (e, written) =>
              (Raised e, <[path_str p := File written]> fs)
          | None =>
              (Returned tt,
               <[path_str p := File (pickle_dumps (listdir_cache self))]> fs)
          end
      | Raised e => (Raised e, fs)
      | Blocked => (Blocked, fs)
      end
  end.

(** ** [class _EventHandler] *)

Definition event_paths (event : FileSystemEvent) : list string :=
  if decide (event_type event = "moved")
  then [src_path event; dest_path event]
  else [src_path event].

Definition pop_all (paths : list string) (subcache : gmap string string)
    : gmap string string :=
  foldl (λ sub path, delete path sub) subcache paths.

Definition _EventHandler_dispatch (handler : _EventHandler)
    (event : FileSystemEvent) : M unit :=
  if is_directory event then mret tt
  else
    CacheManager_invalidate_root_cache (AsStr (eh_root handler));;
    with_lock digest_lock (
      update (set_digest_cache (fmap (pop_all (event_paths event))))).

(** ** [scripts/generate_index_cache.py] *)

(** [get_listdir_cache]: the roots are [Path] objects
    ([Path(r).resolve()]), and each is handed to
    [force_update_listdir_cache] as it is. *)
Definition get_listdir_cache (PACKAGE_ROOTS : list Path)
    (listdir : Path → Outcome (list PkgFile)) : M unit :=
  foldr
    (λ root rest,
       CacheFileManager_force_update_listdir_cache (AsPath root) listdir;;
       rest)
    (mret tt) PACKAGE_ROOTS.

(** [cache_manager.pkg_index_file = ...], an attribute assignment *)
Definition set_pkg_index_file (p : option Path) (self : CacheManager)
    : CacheManager :=
  {| listdir_cache := listdir_cache self;
     digest_cache := digest_cache self;
     observer := observer self;
     watched := watched self;
     watch_lock_held := watch_lock_held self;
     digest_lock_held := digest_lock_held self;
     listdir_lock_held := listdir_lock_held self;
     pkg_index_file := p;
     using_index_file := using_index_file self |}.

Definition PKG_INDEX_FILE : string := "pkg_index_cache.pickle".

(** [serialize_listdir]: a timing wrapper around the method *)
Definition serialize_listdir (cache_manager : CacheManager)
    (fs : gmap string (Node bytes))
    : Outcome unit * gmap string (Node bytes) :=
  CacheFileManager_serialize_listdir_cache cache_manager fs.

(** [main], for the module globals [PACKAGE_ROOTS] and the imported
    [listdir]: how it ends, the file system it leaves, and the calls it
    made.  [pkg_index_file] receives the [str] [PKG_INDEX_FILE], which
    [open] takes as the file name. *)
Definition main (host : Platform) (fs : gmap string (Node bytes))
    (PACKAGE_ROOTS : list Path) (listdir : Path → Outcome (list PkgFile))
    : Outcome unit * gmap string (Node bytes) * list Effect :=
  match CacheFileManager___init__ host fs None with
  | Returned cache_manager =>
      match get_listdir_cache PACKAGE_ROOTS listdir cache_manager with
      | (Returned _, cache_manager, t) =>
          let cache_manager :=
            set_pkg_index_file (Some (mkPath PKG_INDEX_FILE)) cache_manager in
          let '(r, fs') := serialize_listdir cache_manager fs in
          (r, fs', t)
      | (Raised e, _, t) => (Raised e, fs, t)
      | (Blocked, _, t) => (Blocked, fs, t)
      end
  | Raised e => (Raised e, fs, [])
  | Blocked => (Blocked, fs, [])
  end.

(** How the script ends: [exit(status)], or the way [main] ended. *)
Inductive Termination :=
  | Exit (status : nat)
  | Ran (r : Outcome unit).

(** The [if __name__ == "__main__":] block of
    [pypiserver/scripts/generate_index_cache.py].  [resolve r] is
    [Path(r).resolve()], which depends on the working directory and on
    symbolic links. *)
Definition script (resolve : string → Path) (host : Platform)
    (fs : gmap string (Node bytes)) (argv : list string)
    (listdir : Path → Outcome (list PkgFile))
    : Termination * gmap string (Node bytes) * list Effect :=
  if decide (length argv < 2) then (Exit 1, fs, [])
  else
    let PACKAGE_ROOTS := resolve <$> tail argv in
    let '(r, fs', t) := main host fs PACKAGE_ROOTS listdir in
    (Ran r, fs', t).

(** ** Vocabulary of the statements *)

(** No lock is held: the state between two calls of a single thread. *)
Definition quiescent (self : CacheManager) : Prop :=
  watch_lock_held self = false ∧
  digest_lock_held self = false ∧
  listdir_lock_held self = false.

(** The digest cached for [(hash_algo, fpath)], through both levels. *)
Definition digest_lookup (self : CacheManager) (hash_algo fpath : string)
    : option string :=
  digest_cache self !! hash_algo ≫= λ cache, cache !! fpath.

(** The subscription [_watch root] registers. *)
Definition watch_of (root : string) : ObservedWatch :=
  {| watch_handler := {| eh_root := root |};
     watch_path := root;
     watch_recursive := true |}.

(** The manager after [_watch root]. *)
Definition watching (root : string) (self : CacheManager) : CacheManager :=
  set_observer (λ ws, ws ++ [watch_of root])
    (set_watched (λ w, w ∪ {[root]}) self).

(** The manager and the trace after the [if root not in self.watched:
    self._watch(root)] block. *)
Definition ensure_watched (root : string) (self : CacheManager)
    : CacheManager :=
  if decide (root ∈ watched self) then self else watching root self.

Definition ensure_watched_trace (root : string) (self : CacheManager)
    : list Effect :=
  if decide (root ∈ watched self) then [] else [Ev_schedule (watch_of root)].

Definition is_producer_call (ev : Effect) : bool :=
  match ev with
  | Ev_schedule _ => false
  | Ev_listdir _ | Ev_digest _ _ => true
  end.

(** The producer invocations of a trace, in order. *)
Definition producer_calls (t : list Effect) : list Effect :=
  List.filter is_producer_call t.

(** The directories that have a subscription, oldest first. *)
Definition subscribed_roots (self : CacheManager) : list string :=
  watch_path <$> observer self.

(** The watch registry is consistent: no directory is subscribed twice,
    the subscribed directories are exactly the watched set, and every
    subscription is the one [_watch] makes for its directory. *)
Definition watch_inv (self : CacheManager) : Prop :=
  NoDup (subscribed_roots self) ∧
  list_to_set (subscribed_roots self) = watched self ∧
  Forall (λ w, w = watch_of (watch_path w)) (observer self).

(** The calls a client or the observer thread can make on a manager. *)
Inductive Operation :=
  | Op_listdir (root : PathOrStr) (impl_fn : Path → Outcome (list PkgFile))
  | Op_digest_file (fpath hash_algo : string)
      (impl_fn : string → string → Outcome string)
  | Op_invalidate_root_cache (root : PathOrStr)
  | Op_file_listdir (root : PathOrStr)
      (impl_fn : Path → Outcome (list PkgFile))
  | Op_force_update_listdir_cache (root : PathOrStr)
      (impl_fn : Path → Outcome (list PkgFile))
  | Op_dispatch (handler : _EventHandler) (event : FileSystemEvent).

(** The manager an operation leaves behind, however the operation ends. *)
Definition state_after (op : Operation) (self : CacheManager)
    : CacheManager :=
  match op with
  | Op_listdir root impl_fn => (CacheManager_listdir root impl_fn self).1.2
  | Op_digest_file fpath hash_algo impl_fn =>
      (CacheManager_digest_file fpath hash_algo impl_fn self).1.2
  | Op_invalidate_root_cache root =>
      (CacheManager_invalidate_root_cache root self).1.2
  | Op_file_listdir root impl_fn =>
      (CacheFileManager_listdir root impl_fn self).1.2
  | Op_force_update_listdir_cache root impl_fn =>
      (CacheFileManager_force_update_listdir_cache root impl_fn self).1.2
  | Op_dispatch handler event =>
      (_EventHandler_dispatch handler event self).1.2
  end.

(** Whether a call came back (by returning or raising). *)
Definition came_back {A} (r : Outcome A) : bool :=
  match r with
  | Returned _ | Raised _ => true
  | Blocked => false
  end.

Definition came_back_after (op : Operation) (self : CacheManager) : bool :=
  match op with
  | Op_listdir root impl_fn =>
      came_back (CacheManager_listdir root impl_fn self).1.1
  | Op_digest_file fpath hash_algo impl_fn =>
      came_back (CacheManager_digest_file fpath hash_algo impl_fn self).1.1
  | Op_invalidate_root_cache root =>
      came_back (CacheManager_invalidate_root_cache root self).1.1
  | Op_file_listdir root impl_fn =>
      came_back (CacheFileManager_listdir root impl_fn self).1.1
  | Op_force_update_listdir_cache root impl_fn =>
      came_back
        (CacheFileManager_force_update_listdir_cache root impl_fn self).1.1
  | Op_dispatch handler event =>
      came_back (_EventHandler_dispatch handler event self).1.1
  end.

(** The producer handed to an operation always comes back. *)
Definition producer_comes_back (op : Operation) : Prop :=
  match op with
  | Op_listdir _ impl_fn
  | Op_file_listdir _ impl_fn
  | Op_force_update_listdir_cache _ impl_fn =>
      ∀ p, came_back (impl_fn p) = true
  | Op_digest_file _ _ impl_fn =>
      ∀ fpath hash_algo, came_back (impl_fn fpath hash_algo) = true
  | Op_invalidate_root_cache _ | Op_dispatch _ _ => True
  end.

(** The listing cache after [force_update_listdir_cache] has been given
    the [Path] [root]: the listing is stored when the producer returns. *)
Definition store_listing (listdir : Path → Outcome (list PkgFile))
    (cache : gmap PathOrStr (list PkgFile)) (root : Path)
    : gmap PathOrStr (list PkgFile) :=
  match listdir root with
  | Returned v => <[AsPath root := v]> cache
  | _ => cache
  end.

(** The manager [CacheManager.__init__] builds when it succeeds. *)
Definition new_manager : CacheManager :=
  {| listdir_cache := ∅;
     digest_cache := ∅;
     observer := [];
     watched := ∅;
     watch_lock_held := false;
     digest_lock_held := false;
     listdir_lock_held := false;
     pkg_index_file := None;
     using_index_file := false |}.

(** ** What each method computes *)

Example dirname_file : dirname "/srv/pkgs/a.whl" = "/srv/pkgs".
Proof. reflexivity. Qed.

Example dirname_root : dirname "/a.whl" = "/".
Proof. reflexivity. Qed.

Example dirname_bare : dirname "a.whl" = "".
Proof. reflexivity. Qed.

Example dirname_slashes : dirname "//srv//a.whl" = "//srv".
Proof. reflexivity. Qed.

Ltac run_method :=
  unfold CacheFileManager_listdir, _EventHandler_dispatch,
    CacheFileManager_force_update_listdir_cache,
    CacheManager_listdir, CacheManager_digest_file,
    CacheManager_invalidate_root_cache, _watch, observer_schedule, with_lock, try_except_KeyError, getitem,
    call_out, update, get_self, raise, mbind, M_bind, mret, M_ret;
  cbn.

Lemma CacheManager_listdir_hit self root impl_fn v :
  listdir_lock_held self = false →
  listdir_cache self !! AsStr (str root) = Some v →
  CacheManager_listdir root impl_fn self = (Returned v, self, []).
Proof.
  destruct self; cbn; intros -> Hv.
  run_method. rewrite Hv. reflexivity.
Qed.

Lemma CacheManager_listdir_miss self root impl_fn :
  quiescent self →
  listdir_cache self !! AsStr (str root) = None →
  CacheManager_listdir root impl_fn self =
    let p := Path_ (AsStr (str root)) in
    let self1 := ensure_watched (str root) self in
    let t := ensure_watched_trace (str root) self ++ [Ev_listdir p] in
    match impl_fn p with
    | Returned v =>
        (Returned v, set_listdir_cache (<[AsStr (str root) := v]>) self1, t)
    | Raised e => (Raised e, self1, t)
    | Blocked => (Blocked, set_lock listdir_lock true self1, t)
    end.
Proof.
  destruct self; unfold quiescent; cbn; intros (-> & -> & ->) Hv.
  run_method. rewrite Hv. cbn.
  unfold ensure_watched, ensure_watched_trace, watching; cbn.
  case_decide; cbn; destruct (impl_fn _); reflexivity.
Qed.


Lemma CacheManager_digest_file_miss self fpath hash_algo impl_fn :
  quiescent self →
  digest_lookup self hash_algo fpath = None →
  CacheManager_digest_file fpath hash_algo impl_fn self =
    let root := dirname fpath in
    let self1 :=
      ensure_watched root
        (set_digest_cache (setdefault hash_algo ∅) self) in
    let t := ensure_watched_trace root self ++ [Ev_digest fpath hash_algo] in
    match impl_fn fpath hash_algo with
    | Returned v =>
        (Returned v,
         set_digest_cache (λ d,
           <[hash_algo := <[fpath := v]> (default ∅ (d !! hash_algo))]> d)
           self1,
         t)
    | Raised e => (Raised e, self1, t)
    | Blocked => (Blocked, set_lock digest_lock true self1, t)
    end.
Proof.
  destruct self; unfold quiescent, digest_lookup; cbn.
  intros (-> & -> & ->) Hv.
  run_method.
  unfold setdefault, ensure_watched, ensure_watched_trace, watching,
    set_digest_cache; cbn.
  destruct (digest_cache0 !! hash_algo) as [cache|] eqn:Halgo; cbn in Hv;
    cbn; rewrite ?Halgo, ?lookup_insert_eq; cbn;
    rewrite ?Hv, ?lookup_empty; cbn;
    case_decide; cbn; destruct (impl_fn _ _); reflexivity.
Qed.

Lemma CacheManager_invalidate_root_cache_eq self root :
  listdir_lock_held self = false →
  CacheManager_invalidate_root_cache root self =
    (Returned tt, set_listdir_cache (delete (AsStr (str root))) self, []).
Proof. destruct self; cbn; intros ->. reflexivity. Qed.

Lemma force_update_listdir_cache_eq self root impl_fn :
  listdir_lock_held self = false →
  CacheFileManager_force_update_listdir_cache root impl_fn self =
    let t := [Ev_listdir (Path_ root)] in
    match impl_fn (Path_ root) with
    | Returned v => (Returned v, set_listdir_cache (<[root := v]>) self, t)
    | Raised e => (Raised e, self, t)
    | Blocked => (Blocked, set_lock listdir_lock true self, t)
    end.
Proof.
  destruct self; cbn; intros ->. run_method.
  destruct (impl_fn _); reflexivity.
Qed.

Lemma CacheFileManager_listdir_live self root impl_fn :
  using_index_file self = false →
  CacheFileManager_listdir root impl_fn self =
    (v ← CacheManager_listdir root impl_fn; mret (AsList v)) self.
Proof.
  intros Hlive. unfold CacheFileManager_listdir at 1.
  unfold mbind at 1, M_bind at 1, get_self at 1. cbn.
  rewrite Hlive. cbn.
  unfold mbind, M_bind.
  destruct (CacheManager_listdir root impl_fn self) as [[[v|e|] self'] t];
    cbn; by rewrite ?app_nil_r.
Qed.

Lemma CacheFileManager_listdir_frozen self root impl_fn :
  using_index_file self = true →
  CacheFileManager_listdir root impl_fn self =
    (Returned match listdir_cache self !! root with
              | Some v => AsList v
              | None => EmptyDict
              end, self, []).
Proof.
  intros Hfrozen. unfold CacheFileManager_listdir.
  unfold mbind, M_bind, get_self, mret, M_ret. cbn.
  rewrite Hfrozen. reflexivity.
Qed.

Lemma pop_all_lookup paths subcache path :
  pop_all paths subcache !! path =
    if decide (path ∈ paths) then None else subcache !! path.
Proof.
  unfold pop_all. revert subcache.
  induction paths as [|p paths IH]; intros subcache; cbn.
  - case_decide as Hin; [by apply elem_of_nil in Hin | done].
  - rewrite IH. destruct (decide (path = p)) as [->|Hne].
    + rewrite lookup_delete_eq.
      rewrite (decide_True (P := p ∈ p :: paths)) by left.
      by case_decide.
    + rewrite lookup_delete_ne by done.
      apply decide_ext. rewrite elem_of_cons.
      split; [by right | by intros [?|?]].
Qed.

Lemma _EventHandler_dispatch_file self handler event :
  quiescent self →
  is_directory event = false →
  _EventHandler_dispatch handler event self =
    (Returned tt,
     set_digest_cache (fmap (pop_all (event_paths event)))
       (set_listdir_cache (delete (AsStr (eh_root handler))) self),
     []).
Proof.
  destruct self; unfold quiescent; cbn. intros (-> & -> & ->) Hfile.
  run_method. rewrite Hfile. reflexivity.
Qed.

(** ** The watch registry *)

(** Every operation either leaves the registry alone or registers one
    directory that was not watched. *)
Definition watch_step (self self' : CacheManager) : Prop :=
  (watched self' = watched self ∧ observer self' = observer self) ∨
  (∃ r, (r ∉ watched self) ∧
        watched self' = watched self ∪ {[r]} ∧
        observer self' = observer self ++ [watch_of r]).

Lemma state_after_watch_step op self : watch_step self (state_after op self).
Proof.
  destruct self as [lc dc ob wa wl dl ll pf ui].
  destruct op; cbn; run_method; unfold watch_step, watch_of; cbn.
  all: repeat (case_match; cbn; simplify_eq/=); eauto 10.
Qed.

(** Between the calls of one thread no lock is held: an operation that
    starts on an idle manager and comes back leaves it idle. *)
Lemma quiescent_after op self :
  quiescent self → came_back_after op self = true →
  quiescent (state_after op self).
Proof.
  destruct self as [lc dc ob wa wl dl ll pf ui].
  unfold quiescent; cbn. intros (-> & -> & ->).
  destruct op; cbn; run_method.
  all: repeat (case_match; cbn; simplify_eq/=); done.
Qed.

Lemma watch_inv_step self self' :
  watch_inv self → watch_step self self' →
  watch_inv self' ∧
  watched self ⊆ watched self' ∧
  observer self `prefix_of` observer self'.
Proof.
  unfold watch_inv, subscribed_roots.
  intros (Hnodup & Hset & Hshape) [[Hw Ho]|(r & Hfresh & Hw & Ho)].
  - rewrite Hw, Ho. repeat split; done.
  - rewrite Hw, Ho, fmap_app. cbn. repeat split.
    + apply NoDup_app. split; [done|]. split; [|apply NoDup_singleton].
      intros x Hx ->%list_elem_of_singleton.
      apply Hfresh. rewrite <- Hset. by apply elem_of_list_to_set.
    + rewrite list_to_set_app_L, Hset. cbn. by rewrite (right_id_L ∅ (∪)).
    + apply Forall_app. split; [done|]. by apply Forall_singleton.
    + apply union_subseteq_l.
    + by exists [watch_of r].
Qed.

Lemma watch_inv_new_manager : watch_inv new_manager.
Proof.
  unfold watch_inv, subscribed_roots. cbn.
  repeat split; [apply NoDup_nil_2 | apply Forall_nil_2].
Qed.

Lemma ensure_watched_subscribed self r :
  watch_inv self →
  r ∈ watched (ensure_watched r self) ∧
  watch_of r ∈ observer (ensure_watched r self).
Proof.
  intros (_ & Hset & Hshape). unfold ensure_watched.
  destruct self as [lc dc ob wa wl dl ll pf ui]; cbn in Hset, Hshape |- *.
  case_decide as Hin; cbn.
  - split; [done|].
    rewrite <- Hset in Hin. apply elem_of_list_to_set in Hin.
    unfold subscribed_roots in Hin. cbn in Hin.
    apply list_elem_of_fmap in Hin as (w & -> & Hw).
    rewrite Forall_forall in Hshape. by rewrite <- (Hshape w Hw).
  - split; [apply elem_of_union; right; by apply elem_of_singleton|].
    apply elem_of_app. right. by left.
Qed.

Lemma CacheManager___init___ok host :
  ENABLE_CACHING host = true → observer_start host = None →
  CacheManager___init__ host = Returned new_manager.
Proof. unfold CacheManager___init__. by intros -> ->. Qed.

Lemma CacheManager___init___inv host self :
  CacheManager___init__ host = Returned self →
  ENABLE_CACHING host = true ∧ observer_start host = None ∧
  self = new_manager.
Proof.
  unfold CacheManager___init__.
  destruct (ENABLE_CACHING host); cbn; [|done].
  destruct (observer_start host); [done|]. by intros [= <-].
Qed.

(** ** Frozen mode *)

(** C1.  On a manager in frozen mode ([using_index_file] is set, which
    only a successful snapshot load does), [listdir root impl_fn] returns
    the list the snapshot stores under [root], or the empty [{}] when
    [root] is not a key.  The trace is empty, so the producer is not
    called and nothing is scheduled on the observer; the manager, watched
    set included, is returned as it was. *)
Theorem frozen_listdir_serves_snapshot self root impl_fn :
  using_index_file self = true →
  ∃ result,
    CacheFileManager_listdir root impl_fn self = (Returned result, self, []) ∧
    (∀ v, listdir_cache self !! root = Some v → result = AsList v) ∧
    (listdir_cache self !! root = None →
       result = EmptyDict ∧ iterate result = []).
Proof.
  intros Hfrozen. eexists. split.
  - by apply CacheFileManager_listdir_frozen.
  - split.
    + by intros v ->.
    + by intros ->.
Qed.

(** ** Live mode *)

(** C4.  Live [listdir] on an idle manager.  A root with a cached entry
    is answered from the cache: empty trace, manager unchanged.  A root
    without one, when the producer returns [v]: the producer is called
    exactly once, on [Path(root)]; [v] is stored under the root and
    returned; the root is in the watched set and has its subscription. *)
Theorem live_listdir_caches self root impl_fn :
  quiescent self →
  watch_inv self →
  (∀ v, listdir_cache self !! AsStr (str root) = Some v →
     CacheManager_listdir root impl_fn self = (Returned v, self, [])) ∧
  (∀ v, listdir_cache self !! AsStr (str root) = None →
     impl_fn (Path_ (AsStr (str root))) = Returned v →
     ∃ self' t,
       CacheManager_listdir root impl_fn self = (Returned v, self', t) ∧
       producer_calls t = [Ev_listdir (Path_ (AsStr (str root)))] ∧
       listdir_cache self' = <[AsStr (str root) := v]> (listdir_cache self) ∧
       digest_cache self' = digest_cache self ∧
       str root ∈ watched self' ∧
       watch_of (str root) ∈ observer self' ∧
       quiescent self').
Proof.
  intros Hidle Hinv. split.
  - intros v Hv. apply CacheManager_listdir_hit; [apply Hidle | done].
  - intros v Hmiss Hprod.
    rewrite CacheManager_listdir_miss by done. cbv zeta. rewrite Hprod.
    destruct (ensure_watched_subscribed self (str root) Hinv) as [Hw Ho].
    do 2 eexists. split; [reflexivity|].
    unfold ensure_watched, ensure_watched_trace in Hw, Ho |- *.
    destruct self; destruct Hidle as (? & ? & ?); cbn in Hw, Ho |- *.
    case_decide; cbn in Hw, Ho |- *; repeat split; done.
Qed.

(** ** Invalidation from file-system events *)

(** C5.  [dispatch] on an idle manager returns without calling out and
    without touching the watch registry.  A directory event changes
    nothing.  Any other event removes the listing entry of the handler's
    root and nothing else from the listing cache; in the digest cache every
    algorithm keeps its inner dictionary, which loses the source path, and
    for a [moved] event the destination path too, and keeps every other
    path's digest. *)
Theorem dispatch_invalidates self handler event :
  quiescent self →
  ∃ self',
    _EventHandler_dispatch handler event self = (Returned tt, self', []) ∧
    watched self' = watched self ∧
    observer self' = observer self ∧
    (is_directory event = true → self' = self) ∧
    (is_directory event = false →
       listdir_cache self' =
         delete (AsStr (eh_root handler)) (listdir_cache self) ∧
       dom (digest_cache self') = dom (digest_cache self) ∧
       ∀ hash_algo path,
         (path = src_path event ∨
          event_type event = "moved" ∧ path = dest_path event →
          digest_lookup self' hash_algo path = None) ∧
         (path ≠ src_path event →
          (event_type event = "moved" → path ≠ dest_path event) →
          digest_lookup self' hash_algo path
            = digest_lookup self hash_algo path)).
Proof.
  intros Hidle. destruct (is_directory event) eqn:Hdir.
  - exists self. unfold _EventHandler_dispatch. rewrite Hdir. by repeat split.
  - eexists. split; [by apply _EventHandler_dispatch_file|].
    destruct self; cbn. repeat split; try done.
    + apply dom_fmap_L.
    + intros Hpath. unfold digest_lookup; cbn. rewrite lookup_fmap.
      destruct (digest_cache0 !! hash_algo) as [sub|]; [cbn|done].
      rewrite pop_all_lookup, decide_True; [done|].
      unfold event_paths. destruct Hpath as [->|[Hmoved ->]].
      * case_decide; by left.
      * rewrite decide_True by done. right. by left.
    + intros Hsrc Hdest. unfold digest_lookup; cbn. rewrite lookup_fmap.
      destruct (digest_cache0 !! hash_algo) as [sub|]; [cbn|done].
      rewrite pop_all_lookup, decide_False; [done|].
      unfold event_paths. case_decide as Hmoved.
      * rewrite !elem_of_cons, elem_of_nil. intros [?|[?|[]]]; [done|].
        by apply Hdest.
      * rewrite elem_of_cons, elem_of_nil. by intros [?|[]].
Qed.

(** ** Failing producers *)

Lemma ensure_watched_frame r self :
  listdir_cache (ensure_watched r self) = listdir_cache self ∧
  digest_cache (ensure_watched r self) = digest_cache self ∧
  pkg_index_file (ensure_watched r self) = pkg_index_file self ∧
  using_index_file (ensure_watched r self) = using_index_file self ∧
  (quiescent self → quiescent (ensure_watched r self)).
Proof. unfold ensure_watched. by case_decide. Qed.

Lemma digest_lookup_setdefault self hash_algo a p :
  digest_lookup (set_digest_cache (setdefault hash_algo ∅) self) a p
    = digest_lookup self a p.
Proof.
  unfold digest_lookup, setdefault; cbn.
  destruct (digest_cache self !! hash_algo) eqn:Halgo; [done|].
  destruct (decide (hash_algo = a)) as [<-|Hne].
  - by rewrite lookup_insert_eq, Halgo.
  - by rewrite lookup_insert_ne.
Qed.

(** C3, as amended.  On an idle manager, when the producer raises on a
    miss, the exception reaches the caller, all locks are released, the
    listing cache is unchanged and no digest is added, changed or removed.
    After [listdir] the digest-cache map itself is unchanged; after
    [digest_file] it is the old map with an empty inner dictionary added
    for [hash_algo] if that algorithm had none.  The same request made
    again with a producer that returns [v] returns [v]. *)
Theorem producer_failure_is_not_cached self e :
  quiescent self →
  (∀ root impl_fn,
     listdir_cache self !! AsStr (str root) = None →
     impl_fn (Path_ (AsStr (str root))) = Raised e →
     ∃ self' t,
       CacheManager_listdir root impl_fn self = (Raised e, self', t) ∧
       listdir_cache self' = listdir_cache self ∧
       digest_cache self' = digest_cache self ∧
       quiescent self' ∧
       ∀ impl_fn' v,
         impl_fn' (Path_ (AsStr (str root))) = Returned v →
         (CacheManager_listdir root impl_fn' self').1.1 = Returned v) ∧
  (∀ fpath hash_algo impl_fn,
     digest_lookup self hash_algo fpath = None →
     impl_fn fpath hash_algo = Raised e →
     ∃ self' t,
       CacheManager_digest_file fpath hash_algo impl_fn self
         = (Raised e, self', t) ∧
       listdir_cache self' = listdir_cache self ∧
       digest_cache self' = setdefault hash_algo ∅ (digest_cache self) ∧
       (∀ a p, digest_lookup self' a p = digest_lookup self a p) ∧
       quiescent self' ∧
       ∀ impl_fn' v,
         impl_fn' fpath hash_algo = Returned v →
         (CacheManager_digest_file fpath hash_algo impl_fn' self').1.1
           = Returned v).
Proof.
  intros Hidle. split.
  - intros root impl_fn Hmiss Hraise.
    rewrite CacheManager_listdir_miss by done. cbv zeta. rewrite Hraise.
    destruct (ensure_watched_frame (str root) self)
      as (Hl & Hd & _ & _ & Hq).
    do 2 eexists. split; [reflexivity|].
    split; [done|]. split; [done|]. split; [by apply Hq|].
    intros impl_fn' v Hret.
    rewrite CacheManager_listdir_miss; [|by apply Hq|by rewrite Hl].
    cbv zeta. by rewrite Hret.
  - intros fpath hash_algo impl_fn Hmiss Hraise.
    rewrite CacheManager_digest_file_miss by done. cbv zeta. rewrite Hraise.
    set (self0 := set_digest_cache (setdefault hash_algo ∅) self).
    destruct (ensure_watched_frame (dirname fpath) self0)
      as (Hl & Hd & _ & _ & Hq).
    assert (quiescent self0) as Hidle0 by (by destruct self).
    assert (∀ a p, digest_lookup (ensure_watched (dirname fpath) self0) a p
                   = digest_lookup self a p) as Hsame.
    { intros a p. unfold digest_lookup at 1. rewrite Hd.
      apply digest_lookup_setdefault. }
    do 2 eexists. split; [reflexivity|].
    split; [done|]. split; [done|]. split; [done|]. split; [by apply Hq|].
    intros impl_fn' v Hret.
    rewrite CacheManager_digest_file_miss; [|by apply Hq|by rewrite Hsame].
    cbv zeta. by rewrite Hret.
Qed.

(** C10, as amended.  On an idle manager, a miss for a directory that is
    not watched schedules the watch first and calls the producer second,
    whatever the producer does.  If the producer raises, the exception
    propagates and the manager differs from the one before the call by the
    new member of the watched set and its subscription, and, for
    [digest_file], by the empty inner dictionary created for a
    [hash_algo] that had none; no listing and no digest is stored. *)
Theorem watch_is_registered_before_producer self :
  quiescent self →
  (∀ root impl_fn,
     listdir_cache self !! AsStr (str root) = None →
     str root ∉ watched self →
     ∃ r self',
       CacheManager_listdir root impl_fn self =
         (r, self', [Ev_schedule (watch_of (str root));
                     Ev_listdir (Path_ (AsStr (str root)))]) ∧
       ∀ e, impl_fn (Path_ (AsStr (str root))) = Raised e →
         r = Raised e ∧
         self' = watching (str root) self ∧
         watched self' = watched self ∪ {[str root]} ∧
         observer self' = observer self ++ [watch_of (str root)] ∧
         listdir_cache self' = listdir_cache self ∧
         digest_cache self' = digest_cache self) ∧
  (∀ fpath hash_algo impl_fn,
     digest_lookup self hash_algo fpath = None →
     dirname fpath ∉ watched self →
     ∃ r self',
       CacheManager_digest_file fpath hash_algo impl_fn self =
         (r, self', [Ev_schedule (watch_of (dirname fpath));
                     Ev_digest fpath hash_algo]) ∧
       ∀ e, impl_fn fpath hash_algo = Raised e →
         r = Raised e ∧
         self' = watching (dirname fpath)
                   (set_digest_cache (setdefault hash_algo ∅) self) ∧
         watched self' = watched self ∪ {[dirname fpath]} ∧
         observer self' = observer self ++ [watch_of (dirname fpath)] ∧
         listdir_cache self' = listdir_cache self ∧
         digest_cache self' = setdefault hash_algo ∅ (digest_cache self) ∧
         ∀ a p, digest_lookup self' a p = digest_lookup self a p).
Proof.
  intros Hidle. split.
  - intros root impl_fn Hmiss Hfresh.
    rewrite CacheManager_listdir_miss by done. cbv zeta.
    unfold ensure_watched, ensure_watched_trace.
    rewrite !decide_False by done. cbn.
    destruct (impl_fn _) as [v|e'|]; do 2 eexists;
      (split; [reflexivity|]); intros e [= <-].
    by repeat split.
  - intros fpath hash_algo impl_fn Hmiss Hfresh.
    rewrite CacheManager_digest_file_miss by done. cbv zeta.
    unfold ensure_watched, ensure_watched_trace. cbn.
    rewrite !decide_False by done. cbn.
    destruct (impl_fn _ _) as [v|e'|]; do 2 eexists;
      (split; [reflexivity|]); intros e [= <-].
    repeat split. intros a p.
    apply (digest_lookup_setdefault self hash_algo a p).
Qed.

(** ** Construction and snapshots *)

Lemma CacheFileManager___init___loaded host fs p data d :
  ENABLE_CACHING host = true → observer_start host = None →
  stat_error (path_str p) = None →
  fs !! path_str p = Some (File data) →
  pickle_loads data = Some d →
  CacheFileManager___init__ host fs (Some p) =
    Returned {| listdir_cache := d;
                digest_cache := ∅;
                observer := [];
                watched := ∅;
                watch_lock_held := false;
                digest_lock_held := false;
                listdir_lock_held := false;
                pkg_index_file := Some p;
                using_index_file := true |}.
Proof.
  intros Hon Hstart Hstat Hfile Hload.
  unfold CacheFileManager___init__, exists_, open_rb, pickle_load.
  rewrite (CacheManager___init___ok host Hon Hstart), Hstat, Hfile, Hload.
  by rewrite bool_decide_eq_true_2.
Qed.

(** C6.  Where [pickle.load] inverts [pickle.dump] and the event source
    starts: if [serialize_listdir_cache] returns, a manager constructed
    afterwards on the same index file holds a listing cache equal to the
    serialized one and is in frozen mode, and its [listdir] answers every
    request from that mapping with an empty trace, that is, without
    calling the producer. *)
Theorem snapshot_round_trip host self fs fs' :
  (∀ d, pickle_loads (pickle_dumps d) = Some d) →
  ENABLE_CACHING host = true →
  observer_start host = None →
  CacheFileManager_serialize_listdir_cache self fs = (Returned tt, fs') →
  ∃ loaded,
    CacheFileManager___init__ host fs' (pkg_index_file self)
      = Returned loaded ∧
    listdir_cache loaded = listdir_cache self ∧
    using_index_file loaded = true ∧
    ∀ root impl_fn,
      ∃ result,
        CacheFileManager_listdir root impl_fn loaded
          = (Returned result, loaded, []) ∧
        iterate result = default [] (listdir_cache self !! root).
Proof.
  intros Hpickle Hon Hstart.
  unfold CacheFileManager_serialize_listdir_cache, open_wb.
  destruct (pkg_index_file self) as [p|]; [|done].
  intros Hwrite.
  assert (stat_error (path_str p) = None ∧
          fs' = <[path_str p := File (pickle_dumps (listdir_cache self))]> fs)
    as [Hstat ->] by (by repeat case_match; simplify_eq).
  eexists. split.
  - eapply CacheFileManager___init___loaded; try done.
    apply lookup_insert_eq.
  - cbn. split; [done|]. split; [done|]. intros root impl_fn.
    eexists. split; [by apply CacheFileManager_listdir_frozen|].
    cbn. by destruct (listdir_cache self !! root).
Qed.

(** What the [try] around the load does catch: once the base constructor
    has succeeded and [exists()] has not raised, a missing path, a path
    that cannot be opened and a stream that does not unpickle all give the
    manager the base constructor built, in live mode. *)
Lemma snapshot_load_failure_is_swallowed host fs pkg_index_file base :
  CacheManager___init__ host = Returned base →
  match pkg_index_file with
  | None => True
  | Some p =>
      stat_error (path_str p) = None ∧
      (fs !! path_str p = None ∨
       fs !! path_str p = Some NoAccess ∨
       ∃ data, fs !! path_str p = Some (File data) ∧
               pickle_loads data = None)
  end →
  CacheFileManager___init__ host fs pkg_index_file = Returned base ∧
  listdir_cache base = ∅ ∧
  using_index_file base = false.
Proof.
  intros Hbase Hbad.
  destruct (CacheManager___init___inv _ _ Hbase) as (_ & _ & ->).
  unfold CacheFileManager___init__, exists_, open_rb, pickle_load.
  rewrite Hbase. split; [|done].
  destruct pkg_index_file as [p|]; [|done].
  destruct Hbad as [-> [->|[->|(data & -> & Hload)]]]; cbn; try done.
  by rewrite Hload.
Qed.

(** C7 at its failing inputs.  [pkg_index_file.exists()] stands before
    the [try]: on a host where the base constructor succeeds, a snapshot
    path whose name the system cannot resolve makes
    [CacheFileManager.__init__] raise the error of [exists()], whatever
    the file system holds; no manager is built. *)
Theorem snapshot_path_check_escapes host fs p e :
  ENABLE_CACHING host = true →
  observer_start host = None →
  stat_error (path_str p) = Some e →
  CacheFileManager___init__ host fs (Some p) = Raised e.
Proof.
  intros Hon Hstart Hstat. unfold CacheFileManager___init__, exists_.
  by rewrite (CacheManager___init___ok host Hon Hstart), Hstat.
Qed.

(** C8.  Construction returns a manager exactly when the watchdog import
    succeeded and the observer starts.  Without watchdog it raises
    [RuntimeError]; when the observer fails to start, that exception
    leaves the constructor.  [CacheFileManager], whose constructor runs
    the base one first, fails in the same two ways whatever the snapshot,
    and returns a manager exactly when, besides, [exists()] on the
    snapshot path does not raise. *)
Theorem construction_needs_event_source host :
  (ENABLE_CACHING host = false →
     ∃ msg, CacheManager___init__ host = Raised (RuntimeError msg)) ∧
  (∀ e, ENABLE_CACHING host = true → observer_start host = Some e →
     CacheManager___init__ host = Raised e) ∧
  ((∃ self, CacheManager___init__ host = Returned self) ↔
     ENABLE_CACHING host = true ∧ observer_start host = None) ∧
  (∀ (fs : gmap string (Node bytes)) pkg_index_file,
     (ENABLE_CACHING host = false →
        ∃ msg, CacheFileManager___init__ host fs pkg_index_file
                 = Raised (RuntimeError msg)) ∧
     (∀ e, ENABLE_CACHING host = true → observer_start host = Some e →
        CacheFileManager___init__ host fs pkg_index_file = Raised e) ∧
     ((∃ self, CacheFileManager___init__ host fs pkg_index_file
                 = Returned self) ↔
        ENABLE_CACHING host = true ∧ observer_start host = None ∧
        match pkg_index_file with
        | Some p => stat_error (path_str p) = None
        | None => True
        end)).
Proof.
  assert (ENABLE_CACHING host = false →
          ∃ msg, CacheManager___init__ host = Raised (RuntimeError msg))
    as Hoff.
  { intros Hoff. unfold CacheManager___init__. rewrite Hoff. by eexists. }
  assert (∀ e, ENABLE_CACHING host = true → observer_start host = Some e →
          CacheManager___init__ host = Raised e) as Hstart.
  { intros e Hon Hst. unfold CacheManager___init__. by rewrite Hon, Hst. }
  split; [done|]. split; [done|]. split.
  - split.
    + by intros [self (? & ? & _)%CacheManager___init___inv].
    + intros [Hon Hst]. eexists. by apply CacheManager___init___ok.
  - intros fs idx. unfold CacheFileManager___init__. split; [|split].
    + intros [msg ->]%Hoff. by eexists.
    + intros e Hon Hst. by rewrite (Hstart e Hon Hst).
    + split.
      * intros [self Hself].
        destruct (CacheManager___init__ host) as [base| |] eqn:Hbase;
          [|done..].
        apply CacheManager___init___inv in Hbase as (? & ? & _).
        do 2 (split; [done|]). destruct idx as [p|]; [|done].
        unfold exists_ in Hself.
        by destruct (stat_error (path_str p)).
      * intros (Hon & Hst & Hstat).
        rewrite (CacheManager___init___ok host Hon Hst).
        destruct idx as [p|]; [|by eexists].
        unfold exists_, open_rb, pickle_load. rewrite Hstat.
        repeat case_match; simplify_eq; by eexists.
Qed.

(** ** The watch registry over the manager's lifetime *)

(** C9.  A constructed manager has a consistent watch registry, and every
    operation keeps it consistent: after the operation no directory is
    subscribed twice and the subscribed directories are exactly the watched
    set.  No operation shrinks the watched set, and the subscriptions made
    before the operation are all still there, in place. *)
Theorem watch_registry_is_monotone :
  (∀ host self, CacheManager___init__ host = Returned self → watch_inv self) ∧
  (∀ host (fs : gmap string (Node bytes)) pkg_index_file self,
     CacheFileManager___init__ host fs pkg_index_file = Returned self →
     watch_inv self) ∧
  (∀ op self,
     watch_inv self →
     watch_inv (state_after op self) ∧
     watched self ⊆ watched (state_after op self) ∧
     observer self `prefix_of` observer (state_after op self)).
Proof.
  split; [|split].
  - intros host self (_ & _ & ->)%CacheManager___init___inv.
    apply watch_inv_new_manager.
  - intros host fs idx self. unfold CacheFileManager___init__.
    destruct (CacheManager___init__ host) as [base| |] eqn:Hbase; [|done..].
    apply CacheManager___init___inv in Hbase as (_ & _ & ->).
    pose proof watch_inv_new_manager as Hnew.
    repeat case_match; intros [= <-]; done.
  - intros op self Hinv.
    apply (watch_inv_step self); [done|]. apply state_after_watch_step.
Qed.

(** * Further properties of the methods *)

(** ** [digest_file] *)



(** ** [listdir] *)

(** X2.  After live [listdir] has computed a listing on an idle manager,
    asking again for the same directory, spelled as a [str] or as a
    [Path] with the same string, is a hit: the stored list is returned,
    the producer given is not called and the manager does not change. *)
Theorem listdir_twice self root impl_fn v :
  quiescent self →
  listdir_cache self !! AsStr (str root) = None →
  impl_fn (Path_ (AsStr (str root))) = Returned v →
  ∀ root' impl_fn',
    str root' = str root →
    CacheManager_listdir root' impl_fn'
      (CacheManager_listdir root impl_fn self).1.2
    = (Returned v, (CacheManager_listdir root impl_fn self).1.2, []).
Proof.
  intros Hidle Hmiss Hprod root' impl_fn' Hsame.
  rewrite (CacheManager_listdir_miss self root impl_fn Hidle Hmiss).
  cbv zeta. rewrite Hprod. cbn.
  apply CacheManager_listdir_hit.
  - unfold ensure_watched. destruct Hidle as (_ & _ & Hl). by case_decide.
  - cbn. rewrite Hsame. apply lookup_insert_eq.
Qed.

(** ** [invalidate_root_cache] *)

(** X3.  [invalidate_root_cache] needs only the listing lock.  It returns
    without calling out, removes the entry stored under [str(root)] and
    nothing else, and changes nothing at all when there is no such entry;
    calling it twice is the same as calling it once.  On an idle manager
    the next live [listdir] for that root calls the producer again. *)
Theorem invalidate_root_cache_drops_entry self root :
  listdir_lock_held self = false →
  ∃ self',
    CacheManager_invalidate_root_cache root self = (Returned tt, self', []) ∧
    listdir_cache self' = delete (AsStr (str root)) (listdir_cache self) ∧
    digest_cache self' = digest_cache self ∧
    watched self' = watched self ∧
    observer self' = observer self ∧
    (listdir_cache self !! AsStr (str root) = None → self' = self) ∧
    CacheManager_invalidate_root_cache root self' = (Returned tt, self', []) ∧
    (quiescent self →
     ∀ impl_fn,
       producer_calls (CacheManager_listdir root impl_fn self').2
         = [Ev_listdir (Path_ (AsStr (str root)))]).
Proof.
  intros Hfree. eexists.
  split; [by apply CacheManager_invalidate_root_cache_eq|].
  do 4 (split; [done|]). split; [|split].
  - intros Habsent. destruct self; cbn in Habsent |- *.
    unfold set_listdir_cache; cbn. by rewrite delete_id.
  - rewrite CacheManager_invalidate_root_cache_eq by done.
    destruct self; unfold set_listdir_cache; cbn.
    by rewrite delete_delete_eq.
  - intros Hidle impl_fn.
    rewrite CacheManager_listdir_miss;
      [|by destruct self|by cbn; rewrite lookup_delete_eq].
    cbv zeta. unfold ensure_watched_trace.
    destruct (impl_fn _); by case_decide.
Qed.

(** ** [force_update_listdir_cache] *)

(** X4.  [force_update_listdir_cache] needs only the listing lock and
    always calls the producer, exactly once, on [Path(root)], whether or
    not the root is cached; it never schedules a watch.  When the producer
    returns [v], [v] is returned and replaces the entry under [root] as
    given, every other entry staying as it was.  When the producer raises,
    the exception propagates and the manager is unchanged. *)
Theorem force_update_always_recomputes self root impl_fn :
  listdir_lock_held self = false →
  ∃ r self',
    CacheFileManager_force_update_listdir_cache root impl_fn self
      = (r, self', [Ev_listdir (Path_ root)]) ∧
    digest_cache self' = digest_cache self ∧
    watched self' = watched self ∧
    observer self' = observer self ∧
    (∀ v, impl_fn (Path_ root) = Returned v →
       r = Returned v ∧
       listdir_cache self' !! root = Some v ∧
       (∀ k, k ≠ root → listdir_cache self' !! k = listdir_cache self !! k) ∧
       listdir_lock_held self' = false) ∧
    (∀ e, impl_fn (Path_ root) = Raised e → r = Raised e ∧ self' = self).
Proof.
  intros Hfree. rewrite force_update_listdir_cache_eq by done. cbv zeta.
  destruct (impl_fn (Path_ root)) as [v|e|]; do 2 eexists;
    (split; [reflexivity|]); cbn.
  - do 3 (split; [done|]). split; [|done].
    intros ? [= <-]. split; [done|]. split; [apply lookup_insert_eq|].
    split; [|done]. intros k Hk. by rewrite lookup_insert_ne.
  - do 3 (split; [done|]). split; [done|]. by intros ? [= <-].
  - do 3 (split; [done|]). by split.
Qed.

(** X5.  In frozen mode [force_update_listdir_cache] and [listdir] use
    the same key, the root as given: a listing forced in for a root is what
    frozen [listdir] returns for that root afterwards, without calling the
    producer it is given. *)
Theorem force_update_then_frozen_listdir self root impl_fn v :
  listdir_lock_held self = false →
  using_index_file self = true →
  impl_fn (Path_ root) = Returned v →
  ∀ impl_fn',
    CacheFileManager_listdir root impl_fn'
      (CacheFileManager_force_update_listdir_cache root impl_fn self).1.2
    = (Returned (AsList v),
       (CacheFileManager_force_update_listdir_cache root impl_fn self).1.2,
       []).
Proof.
  intros Hfree Hfrozen Hprod impl_fn'.
  rewrite (force_update_listdir_cache_eq self root impl_fn Hfree).
  cbv zeta. rewrite Hprod. cbn.
  rewrite CacheFileManager_listdir_frozen by done.
  cbn. by rewrite lookup_insert_eq.
Qed.

(** ** Events and the next request *)

Lemma pop_all_idemp paths subcache :
  pop_all paths (pop_all paths subcache) = pop_all paths subcache.
Proof.
  apply map_eq. intros path. rewrite !pop_all_lookup. by case_decide.
Qed.

(** X6.  After a file event has been dispatched on an idle manager, the
    next live [listdir] for the handler's root calls the producer again,
    and so does the next [digest_file] for the event's source path, and
    for the destination path of a [moved] event, under every algorithm. *)
Theorem event_forces_recompute self handler event :
  quiescent self →
  is_directory event = false →
  (∀ impl_fn,
     producer_calls
       (CacheManager_listdir (AsStr (eh_root handler)) impl_fn
          (_EventHandler_dispatch handler event self).1.2).2
     = [Ev_listdir (Path_ (AsStr (eh_root handler)))]) ∧
  (∀ path hash_algo impl_fn,
     path = src_path event ∨
     event_type event = "moved" ∧ path = dest_path event →
     producer_calls
       (CacheManager_digest_file path hash_algo impl_fn
          (_EventHandler_dispatch handler event self).1.2).2
     = [Ev_digest path hash_algo]).
Proof.
  intros Hidle Hfile.
  rewrite (_EventHandler_dispatch_file self handler event Hidle Hfile). cbn.
  split.
  - intros impl_fn.
    rewrite CacheManager_listdir_miss;
      [|by destruct self|by cbn; rewrite lookup_delete_eq].
    cbv zeta. unfold ensure_watched_trace.
    destruct (impl_fn _); by case_decide.
  - intros path hash_algo impl_fn Hpath.
    rewrite CacheManager_digest_file_miss; [|by destruct self|].
    + cbv zeta. unfold ensure_watched_trace.
      destruct (impl_fn _ _); by case_decide.
    + unfold digest_lookup; cbn. rewrite lookup_fmap.
      destruct (digest_cache self !! hash_algo) as [sub|]; [cbn|done].
      rewrite pop_all_lookup, decide_True; [done|].
      unfold event_paths. destruct Hpath as [->|[Hmoved ->]].
      * case_decide; by left.
      * rewrite decide_True by done. right. by left.
Qed.

(** X7.  Dispatching the same event a second time changes nothing: the
    manager after one dispatch is a fixed point of that dispatch. *)
Theorem dispatch_twice self handler event :
  quiescent self →
  _EventHandler_dispatch handler event
    (_EventHandler_dispatch handler event self).1.2
  = (Returned tt, (_EventHandler_dispatch handler event self).1.2, []).
Proof.
  intros Hidle. destruct (is_directory event) eqn:Hdir.
  - unfold _EventHandler_dispatch. by rewrite Hdir.
  - rewrite (_EventHandler_dispatch_file self handler event Hidle Hdir). cbn.
    rewrite _EventHandler_dispatch_file; [|by destruct self|done].
    destruct self; unfold set_digest_cache, set_listdir_cache; cbn.
    rewrite delete_delete_eq, <- map_fmap_compose.
    do 3 f_equal. apply map_fmap_ext. intros ? sub _. cbn.
    apply pop_all_idemp.
Qed.

(** ** What no operation does *)

(** X8.  The serving mode is fixed at construction: no operation, however
    it ends, changes [using_index_file] or [pkg_index_file]. *)
Theorem operations_keep_mode op self :
  using_index_file (state_after op self) = using_index_file self ∧
  pkg_index_file (state_after op self) = pkg_index_file self.
Proof.
  destruct self as [lc dc ob wa wl dl ll pf ui].
  destruct op; cbn; run_method.
  all: repeat (case_match; cbn; simplify_eq/=); done.
Qed.

Lemma dom_setdefault (d : gmap string (gmap string string)) hash_algo :
  dom d ⊆ dom (setdefault hash_algo ∅ d).
Proof.
  unfold setdefault. destruct (d !! hash_algo); [done|].
  rewrite dom_insert_L. apply union_subseteq_r.
Qed.

(** X9.  No operation, however it ends, removes an algorithm from the
    outer level of the digest cache: the algorithms present before are
    present after. *)
Theorem hash_algo_is_never_erased op self :
  dom (digest_cache self) ⊆ dom (digest_cache (state_after op self)).
Proof.
  assert (∀ (d : gmap string (gmap string string)) hash_algo fpath v,
    dom d ⊆ dom (<[hash_algo :=
                     <[fpath := v]>
                       (default ∅ (setdefault hash_algo ∅ d !! hash_algo))]>
                   (setdefault hash_algo ∅ d))) as Hstore.
  { intros d hash_algo fpath v. rewrite dom_insert_L.
    etrans; [apply (dom_setdefault d hash_algo)|apply union_subseteq_r]. }
  pose proof dom_setdefault as Hdefault.
  assert (∀ (d : gmap string (gmap string string)) paths,
    dom d ⊆ dom (pop_all paths <$> d)) as Hpop.
  { intros d paths. by rewrite dom_fmap_L. }
  destruct self as [lc dc ob wa wl dl ll pf ui].
  destruct op; cbn; run_method; unfold setdefault in Hstore, Hdefault |- *.
  all: repeat (case_match; cbn; simplify_eq/=); try done.
  all: first [ apply Hpop
             | match goal with
               | H : ?d !! ?a = _ |- _ =>
                   first [ pose proof (Hstore d a) as Hs; rewrite H in Hs;
                           apply Hs
                         | pose proof (Hdefault d a) as Hs; rewrite H in Hs;
                           apply Hs ]
               end ].
Qed.

(** ** Locks *)

Lemma listdir_lock_blocks self :
  listdir_lock_held self = true →
  (∀ root impl_fn,
     CacheManager_listdir root impl_fn self = (Blocked, self, [])) ∧
  (∀ root, CacheManager_invalidate_root_cache root self = (Blocked, self, [])) ∧
  (∀ root impl_fn,
     CacheFileManager_force_update_listdir_cache root impl_fn self
       = (Blocked, self, [])) ∧
  (∀ handler event,
     is_directory event = false →
     _EventHandler_dispatch handler event self = (Blocked, self, [])).
Proof.
  intros Hheld. split; [|split; [|split]].
  - intros root impl_fn. run_method. by rewrite Hheld.
  - intros root. run_method. by rewrite Hheld.
  - intros root impl_fn. run_method. by rewrite Hheld.
  - intros handler event Hfile. run_method. by rewrite Hfile, Hheld.
Qed.

(** X10.  No operation waits for a lock it holds itself: started on an
    idle manager with a producer that comes back, every operation comes
    back, by returning or raising. *)
Theorem idle_manager_never_blocks op self :
  quiescent self →
  producer_comes_back op →
  came_back_after op self = true.
Proof.
  destruct self as [lc dc ob wa wl dl ll pf ui].
  unfold quiescent; cbn. intros (-> & -> & ->) Hprod.
  destruct op; cbn in Hprod |- *; run_method.
  all: repeat (case_match; cbn; simplify_eq/=); try done.
  all: match goal with
       | H : ?f ?x = Blocked |- _ =>
           specialize (Hprod x); rewrite H in Hprod; discriminate Hprod
       | H : ?f ?x ?y = Blocked |- _ =>
           specialize (Hprod x y); rewrite H in Hprod; discriminate Hprod
       end.
Qed.

(** X11.  The listing lock is held while the producer runs.  If the
    producer of a live [listdir] miss never returns, the lock stays held,
    and from then on every live [listdir], [invalidate_root_cache],
    [force_update_listdir_cache] and dispatch of a file event waits
    forever, without a call and without a change; [digest_file] is not
    held up. *)
Theorem stuck_producer_holds_listdir_lock self root impl_fn :
  quiescent self →
  listdir_cache self !! AsStr (str root) = None →
  impl_fn (Path_ (AsStr (str root))) = Blocked →
  ∃ self' t,
    CacheManager_listdir root impl_fn self = (Blocked, self', t) ∧
    listdir_lock_held self' = true ∧
    (∀ root' impl_fn',
       CacheManager_listdir root' impl_fn' self' = (Blocked, self', [])) ∧
    (∀ root',
       CacheManager_invalidate_root_cache root' self'
         = (Blocked, self', [])) ∧
    (∀ root' impl_fn',
       CacheFileManager_force_update_listdir_cache root' impl_fn' self'
         = (Blocked, self', [])) ∧
    (∀ handler event,
       is_directory event = false →
       _EventHandler_dispatch handler event self' = (Blocked, self', [])) ∧
    (∀ fpath hash_algo impl_fn',
       came_back (impl_fn' fpath hash_algo) = true →
       came_back
         (CacheManager_digest_file fpath hash_algo impl_fn' self').1.1
         = true).
Proof.
  intros Hidle Hmiss Hstuck.
  rewrite CacheManager_listdir_miss by done. cbv zeta. rewrite Hstuck.
  do 2 eexists. split; [reflexivity|]. split; [done|].
  destruct (listdir_lock_blocks
              (set_lock listdir_lock true (ensure_watched (str root) self))
              eq_refl) as (H1 & H2 & H3 & H4).
  do 4 (split; [done|]).
  intros fpath hash_algo impl_fn' Hback.
  destruct self as [lc dc ob wa wl dl ll pf ui].
  destruct Hidle as (Hw & Hd & Hl); cbn in Hw, Hd, Hl; subst.
  unfold ensure_watched; run_method.
  repeat (case_match; cbn; simplify_eq/=); try done.
  all: match goal with
       | H : ?f ?x ?y = Blocked, Hb : came_back (?f ?x ?y) = true |- _ =>
           rewrite H in Hb; discriminate Hb
       end.
Qed.

(** ** One subscription per directory *)

(** X12.  A miss for a directory that is already watched schedules
    nothing: the only call made is the producer's, and the watched set
    and the subscriptions are as before, for [listdir] on the directory
    and for [digest_file] on a file whose parent it is. *)
Theorem watched_directory_is_not_rescheduled self r :
  quiescent self →
  r ∈ watched self →
  (∀ root impl_fn,
     str root = r →
     listdir_cache self !! AsStr (str root) = None →
     ∃ res self',
       CacheManager_listdir root impl_fn self
         = (res, self', [Ev_listdir (Path_ (AsStr (str root)))]) ∧
       watched self' = watched self ∧
       observer self' = observer self) ∧
  (∀ fpath hash_algo impl_fn,
     dirname fpath = r →
     digest_lookup self hash_algo fpath = None →
     ∃ res self',
       CacheManager_digest_file fpath hash_algo impl_fn self
         = (res, self', [Ev_digest fpath hash_algo]) ∧
       watched self' = watched self ∧
       observer self' = observer self).
Proof.
  intros Hidle Hwatched. split.
  - intros root impl_fn <- Hmiss.
    rewrite CacheManager_listdir_miss by done. cbv zeta.
    unfold ensure_watched, ensure_watched_trace.
    rewrite !decide_True by done. cbn.
    destruct (impl_fn _); by do 2 eexists.
  - intros fpath hash_algo impl_fn <- Hmiss.
    rewrite CacheManager_digest_file_miss by done. cbv zeta.
    unfold ensure_watched, ensure_watched_trace. cbn.
    rewrite !decide_True by done. cbn.
    destruct (impl_fn _ _); by do 2 eexists.
Qed.

(** ** Frozen mode and events *)

(** X13.  Frozen mode does not switch invalidation off.  [digest_file]
    on a frozen manager still subscribes the file's parent directory, and
    a file event dispatched to a handler removes the snapshot entry stored
    under the handler's root string: frozen [listdir] for that string then
    returns the empty [{}], and calls no producer to fill it again. *)
Theorem frozen_entry_is_lost_on_event self :
  quiescent self →
  using_index_file self = true →
  (∀ fpath hash_algo impl_fn,
     digest_lookup self hash_algo fpath = None →
     dirname fpath ∉ watched self →
     watch_of (dirname fpath) ∈
       observer (CacheManager_digest_file fpath hash_algo impl_fn self).1.2) ∧
  (∀ handler event impl_fn,
     is_directory event = false →
     CacheFileManager_listdir (AsStr (eh_root handler)) impl_fn
       (_EventHandler_dispatch handler event self).1.2
     = (Returned EmptyDict,
        (_EventHandler_dispatch handler event self).1.2, [])).
Proof.
  intros Hidle Hfrozen. split.
  - intros fpath hash_algo impl_fn Hmiss Hfresh.
    rewrite CacheManager_digest_file_miss by done. cbv zeta.
    unfold ensure_watched. cbn. rewrite decide_False by done.
    destruct (impl_fn _ _); cbn; apply elem_of_app; right; by left.
  - intros handler event impl_fn Hfile.
    rewrite (_EventHandler_dispatch_file self handler event Hidle Hfile).
    cbn. rewrite CacheFileManager_listdir_frozen by done.
    cbn. by rewrite lookup_delete_eq.
Qed.

(** ** The index script *)

Lemma get_listdir_cache_cons self r roots listdir :
  listdir_lock_held self = false →
  get_listdir_cache (r :: roots) listdir self =
    match listdir r with
    | Returned v =>
        let '(res, self', t) :=
          get_listdir_cache roots listdir
            (set_listdir_cache (<[AsPath r := v]>) self) in
        (res, self', Ev_listdir r :: t)
    | Raised e => (Raised e, self, [Ev_listdir r])
    | Blocked => (Blocked, set_lock listdir_lock true self, [Ev_listdir r])
    end.
Proof.
  intros Hfree. unfold get_listdir_cache. cbn [foldr].
  unfold mbind at 1, M_bind at 1.
  rewrite force_update_listdir_cache_eq by done. cbn.
  by destruct (listdir r).
Qed.

Lemma store_listing_returned listdir cache r v :
  listdir r = Returned v →
  store_listing listdir cache r = <[AsPath r := v]> cache.
Proof. unfold store_listing. by intros ->. Qed.

Lemma get_listdir_cache_ok self roots listdir :
  listdir_lock_held self = false →
  Forall (λ r, ∃ v, listdir r = Returned v) roots →
  get_listdir_cache roots listdir self =
    (Returned tt,
     set_listdir_cache (λ cache, foldl (store_listing listdir) cache roots)
       self,
     Ev_listdir <$> roots).
Proof.
  intros Hfree Hok. revert self Hfree.
  induction Hok as [|r roots [v Hv] _ IH]; intros self Hfree.
  - by destruct self.
  - rewrite get_listdir_cache_cons by done. rewrite Hv.
    rewrite IH by done. destruct self; unfold set_listdir_cache; cbn.
    by rewrite (store_listing_returned listdir _ r v Hv).
Qed.

Lemma foldl_store_listing_lookup listdir roots cache :
  (∀ r v, r ∈ roots → listdir r = Returned v →
     foldl (store_listing listdir) cache roots !! AsPath r = Some v) ∧
  (∀ k, (∀ r, r ∈ roots → k ≠ AsPath r) →
     foldl (store_listing listdir) cache roots !! k = cache !! k).
Proof.
  assert (∀ roots cache k, (∀ r, r ∈ roots → k ≠ AsPath r) →
            foldl (store_listing listdir) cache roots !! k = cache !! k)
    as Hother.
  { clear roots cache. induction roots as [|r0 roots IH]; intros cache k Hk.
    - done.
    - cbn. rewrite IH by (intros r Hr; apply Hk; by right).
      unfold store_listing. destruct (listdir r0); [|done..].
      apply lookup_insert_ne. intros Heq. by apply (Hk r0); [left|].  }
  split; [|apply Hother].
  revert cache. induction roots as [|r0 roots IH]; intros cache r v Hin Hv.
  - by apply elem_of_nil in Hin.
  - cbn. destruct (decide (r ∈ roots)) as [Hlater|Hlast].
    + by apply IH.
    + apply elem_of_cons in Hin as [->|Hin]; [|done].
      rewrite Hother by (by intros r Hr [= ->]).
      unfold store_listing. rewrite Hv. apply lookup_insert_eq.
Qed.

(** X14.  [get_listdir_cache] on roots whose listings all succeed: the
    producer is called once per root, in order, and nothing is scheduled
    on the observer; afterwards every root has its listing stored under
    its [Path] object, keys of other directories are as they were, and
    the digest cache and the watch registry are untouched.  With no roots
    it does nothing. *)
Theorem get_listdir_cache_lists_every_root self roots listdir :
  listdir_lock_held self = false →
  Forall (λ r, ∃ v, listdir r = Returned v) roots →
  ∃ self',
    get_listdir_cache roots listdir self
      = (Returned tt, self', Ev_listdir <$> roots) ∧
    (∀ r v, r ∈ roots → listdir r = Returned v →
       listdir_cache self' !! AsPath r = Some v) ∧
    (∀ k, (∀ r, r ∈ roots → k ≠ AsPath r) →
       listdir_cache self' !! k = listdir_cache self !! k) ∧
    digest_cache self' = digest_cache self ∧
    watched self' = watched self ∧
    observer self' = observer self ∧
    (roots = [] → self' = self).
Proof.
  intros Hfree Hok. eexists. split; [by apply get_listdir_cache_ok|].
  destruct (foldl_store_listing_lookup listdir roots (listdir_cache self))
    as [Hin Hother].
  split; [exact Hin|]. split; [exact Hother|]. do 3 (split; [done|]).
  intros ->. by destruct self.
Qed.

(** X15.  [get_listdir_cache] stops at the first root whose listing
    raises: the exception propagates, the roots after it are never
    listed, the listings of the roots before it stay stored, and the
    listing lock is free again. *)
Theorem get_listdir_cache_stops_at_failure self done bad rest listdir e :
  listdir_lock_held self = false →
  Forall (λ r, ∃ v, listdir r = Returned v) done →
  listdir bad = Raised e →
  ∃ self',
    get_listdir_cache (done ++ bad :: rest) listdir self
      = (Raised e, self', Ev_listdir <$> (done ++ [bad])) ∧
    (∀ r v, r ∈ done → listdir r = Returned v →
       listdir_cache self' !! AsPath r = Some v) ∧
    (∀ k, (∀ r, r ∈ done → k ≠ AsPath r) →
       listdir_cache self' !! k = listdir_cache self !! k) ∧
    listdir_lock_held self' = false.
Proof.
  intros Hfree Hok Hbad.
  assert (get_listdir_cache (done ++ bad :: rest) listdir self =
            (Raised e,
             set_listdir_cache
               (λ cache, foldl (store_listing listdir) cache done) self,
             Ev_listdir <$> (done ++ [bad]))) as Hrun.
  { revert self Hfree.
    induction Hok as [|r done [v Hv] _ IH]; intros self Hfree; cbn [app].
    - rewrite get_listdir_cache_cons by done. rewrite Hbad. by destruct self.
    - rewrite get_listdir_cache_cons by done. rewrite Hv.
      rewrite IH by done. destruct self; unfold set_listdir_cache; cbn.
      by rewrite (store_listing_returned listdir _ r v Hv). }
  eexists. split; [exact Hrun|].
  destruct (foldl_store_listing_lookup listdir done (listdir_cache self))
    as [Hin Hother].
  split; [exact Hin|]. split; [exact Hother|]. done.
Qed.

Lemma get_listdir_cache_trace self roots listdir :
  listdir_lock_held self = false →
  ∃ n, (get_listdir_cache roots listdir self).2 = Ev_listdir <$> take n roots.
Proof.
  revert self. induction roots as [|r roots IH]; intros self Hfree.
  - by exists 0.
  - rewrite get_listdir_cache_cons by done.
    destruct (listdir r) as [v|e|]; [|by exists 1..].
    destruct (IH (set_listdir_cache (<[AsPath r := v]>) self) Hfree)
      as [n Hn].
    exists (S n).
    destruct (get_listdir_cache roots listdir _) as [[res self'] t].
    cbn in Hn |- *. by rewrite Hn.
Qed.

(** X16.  The index script and the server agree on [Path] keys.  Where
    [pickle.load] inverts [pickle.dump], the event source starts, every
    root can be listed and the index file can be written (its name
    resolves, [open] does not refuse it and [pickle.dump] does not raise
    on the index): [main] returns
    after listing each root once, changes no file but the index file, and
    a manager constructed on that file is frozen and serves every root,
    asked for as the [Path] the script was given, its listing, and every
    other key, the string spelling of a root included, the empty [{}]. *)
Theorem main_writes_loadable_index host fs roots listdir :
  (∀ d, pickle_loads (pickle_dumps d) = Some d) →
  ENABLE_CACHING host = true →
  observer_start host = None →
  Forall (λ r, ∃ v, listdir r = Returned v) roots →
  fs !! PKG_INDEX_FILE ≠ Some NoAccess →
  stat_error PKG_INDEX_FILE = None →
  pickle_dump_fails (foldl (store_listing listdir) ∅ roots) = None →
  ∃ fs',
    main host fs roots listdir = (Returned tt, fs', Ev_listdir <$> roots) ∧
    (∀ name, name ≠ PKG_INDEX_FILE → fs' !! name = fs !! name) ∧
    ∃ loaded,
      CacheFileManager___init__ host fs' (Some (mkPath PKG_INDEX_FILE))
        = Returned loaded ∧
      using_index_file loaded = true ∧
      (∀ r v impl_fn, r ∈ roots → listdir r = Returned v →
         CacheFileManager_listdir (AsPath r) impl_fn loaded
           = (Returned (AsList v), loaded, [])) ∧
      (∀ k impl_fn, (∀ r, r ∈ roots → k ≠ AsPath r) →
         CacheFileManager_listdir k impl_fn loaded
           = (Returned EmptyDict, loaded, [])).
Proof.
  intros Hpickle Hon Hstart Hok Hwritable Hstat Hdump.
  unfold main, CacheFileManager___init__ at 1.
  rewrite (CacheManager___init___ok host Hon Hstart).
  rewrite get_listdir_cache_ok by done.
  unfold serialize_listdir, CacheFileManager_serialize_listdir_cache,
    open_wb. cbn.
  fold PKG_INDEX_FILE. rewrite Hstat, Hdump.
  set (index := foldl (store_listing listdir) ∅ roots).
  exists (<[PKG_INDEX_FILE := File (pickle_dumps index)]> fs). split.
  - by destruct (fs !! PKG_INDEX_FILE) as [[data|]|].
  - split; [by intros name Hname; rewrite lookup_insert_ne|].
    eexists. split.
    + eapply CacheFileManager___init___loaded; try done.
      apply lookup_insert_eq.
    + split; [done|].
      destruct (foldl_store_listing_lookup listdir roots ∅) as [Hin Hother].
      split.
      * intros r v impl_fn Hr Hv.
        rewrite CacheFileManager_listdir_frozen by done. cbn.
        subst index. by rewrite (Hin r v Hr Hv).
      * intros k impl_fn Hk.
        rewrite CacheFileManager_listdir_frozen by done. cbn.
        subst index. by rewrite (Hother k Hk), lookup_empty.
Qed.

Lemma get_listdir_cache_returned_trace self roots listdir :
  listdir_lock_held self = false →
  (get_listdir_cache roots listdir self).1.1 = Returned tt →
  (get_listdir_cache roots listdir self).2 = Ev_listdir <$> roots.
Proof.
  revert self. induction roots as [|r roots IH]; intros self Hfree.
  - done.
  - rewrite get_listdir_cache_cons by done.
    destruct (listdir r) as [v|e|]; [|done..].
    pose proof (IH (set_listdir_cache (<[AsPath r := v]>) self) Hfree)
      as Hrest.
    destruct (get_listdir_cache roots listdir _) as [[res self'] t].
    cbn in Hrest |- *. intros Hres. by rewrite (Hrest Hres).
Qed.

(** X17.  The script writes last.  Started without a root argument it
    exits with status 1, having listed nothing and written nothing.
    However it ends, it has only listed a leading part of its roots, in
    order, and scheduled no watch; it has changed no file but the index
    file; and it has touched the index file only after listing every
    root. *)
Theorem script_writes_only_after_listing resolve host fs argv listdir :
  ∃ r fs' t,
    script resolve host fs argv listdir = (r, fs', t) ∧
    (length argv < 2 → r = Exit 1 ∧ fs' = fs ∧ t = []) ∧
    (∀ name, name ≠ PKG_INDEX_FILE → fs' !! name = fs !! name) ∧
    (fs' ≠ fs → t = Ev_listdir <$> (resolve <$> tail argv)) ∧
    ∃ n, t = Ev_listdir <$> take n (resolve <$> tail argv).
Proof.
  unfold script. case_decide as Hargs.
  - do 3 eexists. split; [reflexivity|]. split; [done|]. split; [done|].
    split; [done|]. by exists 0.
  - unfold main, CacheFileManager___init__.
    destruct (CacheManager___init__ host) as [self|e|] eqn:Hinit.
    + apply CacheManager___init___inv in Hinit as (_ & _ & ->).
      destruct (get_listdir_cache_trace new_manager (resolve <$> tail argv)
                  listdir eq_refl) as [n Hn].
      pose proof (get_listdir_cache_returned_trace new_manager
                    (resolve <$> tail argv) listdir eq_refl) as Hfull.
      destruct (get_listdir_cache (resolve <$> tail argv) listdir
                  new_manager) as [[[[]|e|] self'] t];
        cbn in Hn, Hfull; subst t.
      * specialize (Hfull eq_refl).
        unfold serialize_listdir, CacheFileManager_serialize_listdir_cache,
          open_wb. cbn. fold PKG_INDEX_FILE.
        destruct (stat_error PKG_INDEX_FILE) as [e|];
          [|destruct (fs !! PKG_INDEX_FILE) as [[data|]|];
            (try destruct (pickle_dump_fails (listdir_cache self'))
               as [[e written]|])];
          do 3 eexists; (split; [reflexivity|]);
          (split; [by intros ?|]);
          (split; [by intros name Hname; rewrite ?lookup_insert_ne|]);
          (split; [by intros _|]); by exists n.
      * do 3 eexists. split; [reflexivity|]. split; [by intros ?|].
        do 2 (split; [done|]). by exists n.
      * do 3 eexists. split; [reflexivity|]. split; [by intros ?|].
        do 2 (split; [done|]). by exists n.
    + do 3 eexists. split; [reflexivity|]. split; [by intros ?|].
      do 2 (split; [done|]). by exists 0.
    + do 3 eexists. split; [reflexivity|]. split; [by intros ?|].
      do 2 (split; [done|]). by exists 0.
Qed.

End Cache.

(** * Concrete managers

    Package entries are their file names; [pathlib] is applied to strings
    that are already normal; a pickle stream is either the dictionary it
    encodes or a corrupt stream. *)

Definition host_with_watchdog : Platform :=
  {| ENABLE_CACHING := true; observer_start := None |}.

Definition normal_str (s : string) : string := s.

Definition toy_dumps (d : gmap PathOrStr (list string))
    : option (gmap PathOrStr (list string)) := Some d.

Definition toy_loads (data : option (gmap PathOrStr (list string)))
    : option (gmap PathOrStr (list string)) := data.

(** The system refuses a name of 4096 bytes or more ([PATH_MAX] on
    Linux) with [ENAMETOOLONG], and resolves every other name. *)
Definition linux_stat_error (name : string) : option Exception :=
  if decide (4096 ≤ String.length name) then Some (OSError "ENAMETOOLONG")
  else None.

Definition toy_dump_fails (d : gmap PathOrStr (list string))
    : option (Exception * option (gmap PathOrStr (list string))) := None.

Definition index_file : Path := mkPath "pkg_index_cache.pickle".

(** A manager that loaded the snapshot [{"/repo/pkgs": [A, B]}]. *)
Definition frozen_manager : @CacheManager string :=
  {| listdir_cache := {[AsStr "/repo/pkgs" := ["A"; "B"]]};
     digest_cache := ∅;
     observer := [];
     watched := ∅;
     watch_lock_held := false;
     digest_lock_held := false;
     listdir_lock_held := false;
     pkg_index_file := Some index_file;
     using_index_file := true |}.

(** A live manager that has listed [/repo/pkgs] and hashed two of its
    files. *)
Definition warm_manager : @CacheManager string :=
  {| listdir_cache := {[AsStr "/repo/pkgs" := ["a.whl"; "b.whl"]]};
     digest_cache :=
       {["sha256" := {["/repo/pkgs/a.whl" := "0a"; "/repo/pkgs/b.whl" := "0b"]};
         "md5" := {["/repo/pkgs/a.whl" := "1a"]}]};
     observer := [watch_of "/repo/pkgs"];
     watched := {["/repo/pkgs"]};
     watch_lock_held := false;
     digest_lock_held := false;
     listdir_lock_held := false;
     pkg_index_file := Some index_file;
     using_index_file := false |}.

Definition failing_listdir (p : Path) : Outcome (list string) :=
  Raised (OSError "EIO").

Definition failing_digest (fpath hash_algo : string) : Outcome string :=
  Raised (OSError "EIO").

Lemma quiescent_new_manager : quiescent (@new_manager string).
Proof. by repeat split. Qed.

Lemma quiescent_warm_manager : quiescent warm_manager.
Proof. by repeat split. Qed.

(** ** C1 *)

Lemma frozen_listdir_serves_snapshot_witness :
  using_index_file frozen_manager = true ∧
  CacheFileManager_listdir normal_str (AsStr "/repo/pkgs") failing_listdir
    frozen_manager = (Returned (AsList ["A"; "B"]), frozen_manager, []) ∧
  CacheFileManager_listdir normal_str (AsStr "/repo/other") failing_listdir
    frozen_manager = (Returned EmptyDict, frozen_manager, []).
Proof.
  split; [reflexivity|]. split.
  - destruct (frozen_listdir_serves_snapshot normal_str frozen_manager
                (AsStr "/repo/pkgs") failing_listdir eq_refl)
      as (result & Hrun & Hhit & _).
    rewrite Hrun, (Hhit ["A"; "B"]); reflexivity.
  - destruct (frozen_listdir_serves_snapshot normal_str frozen_manager
                (AsStr "/repo/other") failing_listdir eq_refl)
      as (result & Hrun & _ & Hmiss).
    rewrite Hrun. destruct Hmiss as [-> _]; reflexivity.
Defined.

(** ** C4 *)

Lemma watch_inv_warm_manager : watch_inv warm_manager.
Proof.
  split; [|split].
  - apply NoDup_singleton.
  - apply set_eq. intros r. cbn. rewrite !elem_of_union, !elem_of_singleton.
    rewrite elem_of_empty. tauto.
  - by apply Forall_singleton.
Qed.

Lemma live_listdir_caches_witness :
  quiescent warm_manager ∧
  watch_inv warm_manager ∧
  CacheManager_listdir normal_str (AsPath (mkPath "/repo/pkgs"))
    failing_listdir warm_manager
    = (Returned ["a.whl"; "b.whl"], warm_manager, []) ∧
  ∃ self' t,
    CacheManager_listdir normal_str (AsStr "/repo/extra")
      (λ _, Returned ["c.whl"]) warm_manager = (Returned ["c.whl"], self', t) ∧
    producer_calls t = [Ev_listdir (mkPath "/repo/extra")] ∧
    "/repo/extra" ∈ watched self'.
Proof.
  split; [by repeat split|]. split; [apply watch_inv_warm_manager|].
  split.
  - apply (live_listdir_caches normal_str warm_manager
             (AsPath (mkPath "/repo/pkgs")) failing_listdir
             quiescent_warm_manager watch_inv_warm_manager).
    reflexivity.
  - destruct (live_listdir_caches normal_str warm_manager
                (AsStr "/repo/extra") (λ _, Returned ["c.whl"])
                quiescent_warm_manager watch_inv_warm_manager)
      as [_ Hmiss].
    destruct (Hmiss ["c.whl"] eq_refl eq_refl)
      as (self' & t & Hrun & Hcalls & _ & _ & Hw & _).
    by exists self', t.
Defined.

(** ** C5 *)

Definition b_renamed_to_c : FileSystemEvent :=
  {| is_directory := false;
     event_type := "moved";
     src_path := "/repo/pkgs/b.whl";
     dest_path := "/repo/pkgs/c.whl" |}.

Lemma dispatch_invalidates_witness :
  quiescent warm_manager ∧
  ∃ self',
    _EventHandler_dispatch {| eh_root := "/repo/pkgs" |} b_renamed_to_c
      warm_manager = (Returned tt, self', []) ∧
    listdir_cache self' = delete (AsStr "/repo/pkgs") (listdir_cache warm_manager) ∧
    digest_lookup self' "sha256" "/repo/pkgs/b.whl" = None ∧
    digest_lookup self' "sha256" "/repo/pkgs/a.whl" = Some "0a".
Proof.
  split; [by repeat split|].
  destruct (dispatch_invalidates warm_manager {| eh_root := "/repo/pkgs" |}
              b_renamed_to_c quiescent_warm_manager)
    as (self' & Hrun & _ & _ & _ & Hfile).
  destruct (Hfile eq_refl) as (Hlist & _ & Hdig).
  exists self'. split; [done|]. split; [done|]. split.
  - apply (Hdig "sha256" "/repo/pkgs/b.whl"). by left.
  - destruct (Hdig "sha256" "/repo/pkgs/a.whl") as [_ ->]; done.
Defined.

(** ** C3 *)

Lemma producer_failure_is_not_cached_witness :
  quiescent warm_manager ∧
  (∃ self' t,
     CacheManager_listdir normal_str (AsStr "/repo/extra") failing_listdir
       warm_manager = (Raised (OSError "EIO"), self', t) ∧
     listdir_cache self' = listdir_cache warm_manager ∧
     digest_cache self' = digest_cache warm_manager) ∧
  (∃ self' t,
     CacheManager_digest_file "/repo/pkgs/c.whl" "sha256" failing_digest
       warm_manager = (Raised (OSError "EIO"), self', t) ∧
     listdir_cache self' = listdir_cache warm_manager ∧
     digest_cache self' = digest_cache warm_manager).
Proof.
  split; [by repeat split|].
  destruct (producer_failure_is_not_cached normal_str warm_manager
              (OSError "EIO") quiescent_warm_manager) as [Hlistdir Hdigest].
  split.
  - destruct (Hlistdir (AsStr "/repo/extra") failing_listdir
                eq_refl eq_refl) as (self' & t & Hrun & Hl & Hd & _).
    by exists self', t.
  - destruct (Hdigest "/repo/pkgs/c.whl" "sha256" failing_digest
                eq_refl eq_refl) as (self' & t & Hrun & Hl & Hd & _).
    exists self', t. split; [done|]. split; [done|]. by rewrite Hd.
Defined.

(** The digest-cache map does change when the failing request is the
    first for its algorithm: the empty inner dictionary stays. *)
Lemma producer_failure_changes_digest_cache :
  digest_lookup (@new_manager string) "sha256" "/repo/pkgs/a.whl" = None ∧
  (CacheManager_digest_file "/repo/pkgs/a.whl" "sha256" failing_digest
     (@new_manager string)).1.1 = Raised (OSError "EIO") ∧
  digest_cache
    (CacheManager_digest_file "/repo/pkgs/a.whl" "sha256" failing_digest
       (@new_manager string)).1.2
  ≠ digest_cache (@new_manager string).
Proof.
  split; [reflexivity|]. split; [reflexivity|].
  intros Heq. apply (f_equal (λ d, d !! "sha256")) in Heq.
  vm_compute in Heq. discriminate Heq.
Qed.

(** ** C10 *)

Lemma watch_is_registered_before_producer_witness :
  quiescent warm_manager ∧
  (∃ self',
     CacheManager_listdir normal_str (AsStr "/repo/extra") failing_listdir
       warm_manager =
       (Raised (OSError "EIO"), self',
        [Ev_schedule (watch_of "/repo/extra");
         Ev_listdir (mkPath "/repo/extra")]) ∧
     watched self' = watched warm_manager ∪ {["/repo/extra"]} ∧
     listdir_cache self' = listdir_cache warm_manager) ∧
  (∃ self',
     CacheManager_digest_file "/srv/wheels/d.whl" "md5" failing_digest
       warm_manager =
       (Raised (OSError "EIO"), self',
        [Ev_schedule (watch_of "/srv/wheels");
         Ev_digest "/srv/wheels/d.whl" "md5"]) ∧
     watched self' = watched warm_manager ∪ {["/srv/wheels"]} ∧
     digest_cache self' = digest_cache warm_manager).
Proof.
  split; [by repeat split|].
  destruct (watch_is_registered_before_producer normal_str warm_manager
              quiescent_warm_manager) as [Hlistdir Hdigest].
  split.
  - destruct (Hlistdir (AsStr "/repo/extra") failing_listdir eq_refl)
      as (r & self' & Hrun & Hfail).
    { by vm_compute. }
    destruct (Hfail (OSError "EIO") eq_refl) as (-> & _ & Hw & _ & Hl & _).
    by exists self'.
  - destruct (Hdigest "/srv/wheels/d.whl" "md5" failing_digest eq_refl)
      as (r & self' & Hrun & Hfail).
    { by vm_compute. }
    destruct (Hfail (OSError "EIO") eq_refl)
      as (-> & _ & Hw & _ & _ & Hd & _).
    exists self'. split; [done|]. split; [done|]. by rewrite Hd.
Defined.

(** A failed [digest_file] for a new algorithm leaves more than a new
    watch behind: the manager is not the old one with the watch added. *)
Lemma failed_digest_changes_more_than_watched :
  (CacheManager_digest_file "/srv/wheels/d.whl" "blake2b" failing_digest
     warm_manager).1.1 = Raised (OSError "EIO") ∧
  digest_lookup warm_manager "blake2b" "/srv/wheels/d.whl" = None ∧
  ("/srv/wheels" ∉ watched warm_manager) ∧
  (CacheManager_digest_file "/srv/wheels/d.whl" "blake2b" failing_digest
     warm_manager).1.2
  ≠ watching "/srv/wheels" warm_manager.
Proof.
  split; [reflexivity|]. split; [reflexivity|]. split; [by vm_compute|].
  intros Heq.
  apply (f_equal (λ self, digest_cache self !! "blake2b")) in Heq.
  vm_compute in Heq. discriminate Heq.
Qed.

(** ** C6 *)

Lemma snapshot_round_trip_witness :
  (∀ d, toy_loads (toy_dumps d) = Some d) ∧
  CacheFileManager_serialize_listdir_cache toy_dumps linux_stat_error
    toy_dump_fails warm_manager ∅
    = (Returned tt,
       <[path_str index_file := File (toy_dumps (listdir_cache warm_manager))]>
         ∅) ∧
  ∃ loaded,
    CacheFileManager___init__ toy_loads linux_stat_error host_with_watchdog
      (<[path_str index_file := File (toy_dumps (listdir_cache warm_manager))]>
         ∅)
      (Some index_file) = Returned loaded ∧
    listdir_cache loaded = listdir_cache warm_manager ∧
    using_index_file loaded = true.
Proof.
  split; [reflexivity|].
  assert (CacheFileManager_serialize_listdir_cache toy_dumps
            linux_stat_error toy_dump_fails warm_manager ∅
          = (Returned tt,
             <[path_str index_file :=
                 File (toy_dumps (listdir_cache warm_manager))]> ∅))
    as Hwritten by reflexivity.
  split; [exact Hwritten|].
  destruct (snapshot_round_trip normal_str toy_dumps toy_loads
              linux_stat_error toy_dump_fails
              host_with_watchdog warm_manager ∅ _
              (λ d, eq_refl) eq_refl eq_refl Hwritten)
    as (loaded & Hinit & Hcache & Hfrozen & _).
  by exists loaded.
Defined.

(** ** C7 *)

Definition too_long_name : string :=
  String.string_of_list_ascii (replicate 5000 "a"%char).

Lemma snapshot_path_check_escapes_witness :
  ENABLE_CACHING host_with_watchdog = true ∧
  observer_start host_with_watchdog = None ∧
  linux_stat_error (path_str (mkPath too_long_name))
    = Some (OSError "ENAMETOOLONG") ∧
  @CacheFileManager___init__ string _ toy_loads linux_stat_error
    host_with_watchdog ∅ (Some (mkPath too_long_name))
  = Raised (OSError "ENAMETOOLONG").
Proof.
  split; [reflexivity|]. split; [reflexivity|].
  assert (linux_stat_error (path_str (mkPath too_long_name))
          = Some (OSError "ENAMETOOLONG")) as Hlong by (by vm_compute).
  split; [exact Hlong|].
  exact (snapshot_path_check_escapes toy_loads linux_stat_error
           host_with_watchdog ∅ (mkPath too_long_name)
           (OSError "ENAMETOOLONG") eq_refl eq_refl Hlong).
Defined.

(** ** C9 *)

Lemma watch_registry_is_monotone_witness :
  watch_inv warm_manager ∧
  watch_inv (state_after normal_str
               (Op_digest_file "/srv/wheels/d.whl" "md5" failing_digest)
               warm_manager) ∧
  watched warm_manager ⊆
    watched (state_after normal_str
               (Op_digest_file "/srv/wheels/d.whl" "md5" failing_digest)
               warm_manager).
Proof.
  split; [apply watch_inv_warm_manager|].
  destruct (watch_registry_is_monotone normal_str toy_loads
              linux_stat_error) as (_ & _ & Hstep).
  destruct (Hstep (Op_digest_file "/srv/wheels/d.whl" "md5" failing_digest)
              warm_manager watch_inv_warm_manager) as (Hinv & Hsub & _).
  by split.
Defined.

(** ** C8 *)

Lemma construction_needs_event_source_witness :
  (∃ msg,
     @CacheManager___init__ string
       {| ENABLE_CACHING := false; observer_start := None |}
       = Raised (RuntimeError msg)) ∧
  (∃ self, @CacheManager___init__ string host_with_watchdog = Returned self).
Proof.
  split.
  - by apply (construction_needs_event_source toy_loads linux_stat_error
                {| ENABLE_CACHING := false; observer_start := None |}).
  - by apply (construction_needs_event_source toy_loads linux_stat_error
                host_with_watchdog).
Defined.

(** ** C2 *)

(** C2 at a failing input.  The index script hands [Path] objects to
    [force_update_listdir_cache], which stores the listing under the
    [Path] object and not under its string: the string key stays absent,
    [invalidate_root_cache] on the same root leaves the entry in place,
    and live [listdir] on the same root misses, calls the producer again
    and stores a second entry.  Frozen [listdir] likewise looks the root up
    as given: asked with a [Path], it misses the entry stored under the
    string. *)
Theorem force_update_keys_by_object :
  let root := AsPath (mkPath "/repo/pkgs") in
  let self1 :=
    (get_listdir_cache normal_str [mkPath "/repo/pkgs"]
       (λ _, Returned ["a.whl"]) new_manager).1.2 in
  listdir_cache self1 !! root = Some ["a.whl"] ∧
  listdir_cache self1 !! AsStr (str root) = None ∧
  listdir_cache (CacheManager_invalidate_root_cache root self1).1.2 !! root
    = Some ["a.whl"] ∧
  CacheManager_listdir normal_str root (λ _, Returned ["b.whl"]) self1
    = (Returned ["b.whl"],
       set_listdir_cache (<[AsStr "/repo/pkgs" := ["b.whl"]]>)
         (watching "/repo/pkgs" self1),
       [Ev_schedule (watch_of "/repo/pkgs");
        Ev_listdir (mkPath "/repo/pkgs")]) ∧
  CacheFileManager_listdir normal_str root failing_listdir frozen_manager
    = (Returned EmptyDict, frozen_manager, []).
Proof. cbv zeta. repeat split; reflexivity. Qed.

(** * Concrete runs of the further properties *)

Definition lists_own_name (p : Path) : Outcome (list string) :=
  Returned [path_str p].

Definition fails_on_b (p : Path) : Outcome (list string) :=
  if decide (p = mkPath "/repo/b") then Raised (OSError "EIO")
  else Returned [path_str p].

Definition never_returns (p : Path) : Outcome (list string) := Blocked.

(** ** X1 *)


(** ** X2 *)

Lemma listdir_twice_witness :
  quiescent (@new_manager string) ∧
  CacheManager_listdir normal_str (AsStr "/repo/pkgs") failing_listdir
    (CacheManager_listdir normal_str (AsPath (mkPath "/repo/pkgs"))
       lists_own_name new_manager).1.2
  = (Returned ["/repo/pkgs"],
     (CacheManager_listdir normal_str (AsPath (mkPath "/repo/pkgs"))
        lists_own_name new_manager).1.2,
     []).
Proof.
  split; [by repeat split|].
  by apply (listdir_twice normal_str new_manager
              (AsPath (mkPath "/repo/pkgs")) lists_own_name ["/repo/pkgs"]
              quiescent_new_manager eq_refl eq_refl
              (AsStr "/repo/pkgs") failing_listdir).
Defined.

(** ** X3 *)

Lemma invalidate_root_cache_drops_entry_witness :
  listdir_lock_held warm_manager = false ∧
  ∃ self',
    CacheManager_invalidate_root_cache (AsPath (mkPath "/repo/pkgs"))
      warm_manager = (Returned tt, self', []) ∧
    listdir_cache self' !! AsStr "/repo/pkgs" = None.
Proof.
  split; [reflexivity|].
  destruct (invalidate_root_cache_drops_entry normal_str warm_manager
              (AsPath (mkPath "/repo/pkgs")) eq_refl)
    as (self' & Hrun & Hcache & _).
  exists self'. split; [done|]. rewrite Hcache. apply lookup_delete_eq.
Defined.

(** ** X4 *)

Lemma force_update_always_recomputes_witness :
  listdir_lock_held warm_manager = false ∧
  ∃ self',
    CacheFileManager_force_update_listdir_cache normal_str
      (AsStr "/repo/pkgs") lists_own_name warm_manager
    = (Returned ["/repo/pkgs"], self', [Ev_listdir (mkPath "/repo/pkgs")]) ∧
    listdir_cache self' !! AsStr "/repo/pkgs" = Some ["/repo/pkgs"].
Proof.
  split; [reflexivity|].
  destruct (force_update_always_recomputes normal_str warm_manager
              (AsStr "/repo/pkgs") lists_own_name eq_refl)
    as (r & self' & Hrun & _ & _ & _ & Hok & _).
  destruct (Hok ["/repo/pkgs"] eq_refl) as (-> & Hstored & _).
  by exists self'.
Defined.

(** ** X5 *)

Lemma force_update_then_frozen_listdir_witness :
  listdir_lock_held frozen_manager = false ∧
  using_index_file frozen_manager = true ∧
  CacheFileManager_listdir normal_str (AsPath (mkPath "/repo/new"))
    failing_listdir
    (CacheFileManager_force_update_listdir_cache normal_str
       (AsPath (mkPath "/repo/new")) lists_own_name frozen_manager).1.2
  = (Returned (AsList ["/repo/new"]),
     (CacheFileManager_force_update_listdir_cache normal_str
        (AsPath (mkPath "/repo/new")) lists_own_name frozen_manager).1.2,
     []).
Proof.
  split; [reflexivity|]. split; [reflexivity|].
  by apply (force_update_then_frozen_listdir normal_str frozen_manager
              (AsPath (mkPath "/repo/new")) lists_own_name ["/repo/new"]
              eq_refl eq_refl eq_refl failing_listdir).
Defined.

(** ** X6 *)

Lemma event_forces_recompute_witness :
  quiescent warm_manager ∧
  is_directory b_renamed_to_c = false ∧
  producer_calls
    (CacheManager_listdir normal_str (AsStr "/repo/pkgs") lists_own_name
       (_EventHandler_dispatch {| eh_root := "/repo/pkgs" |} b_renamed_to_c
          warm_manager).1.2).2
  = [Ev_listdir (mkPath "/repo/pkgs")] ∧
  producer_calls
    (CacheManager_digest_file "/repo/pkgs/b.whl" "sha256" failing_digest
       (_EventHandler_dispatch {| eh_root := "/repo/pkgs" |} b_renamed_to_c
          warm_manager).1.2).2
  = [Ev_digest "/repo/pkgs/b.whl" "sha256"].
Proof.
  split; [by repeat split|]. split; [reflexivity|].
  destruct (event_forces_recompute normal_str warm_manager
              {| eh_root := "/repo/pkgs" |} b_renamed_to_c
              quiescent_warm_manager eq_refl) as [Hlist Hdigest].
  split.
  - apply (Hlist lists_own_name).
  - apply (Hdigest "/repo/pkgs/b.whl" "sha256" failing_digest). by left.
Defined.

(** ** X7 *)

Lemma dispatch_twice_witness :
  quiescent warm_manager ∧
  _EventHandler_dispatch {| eh_root := "/repo/pkgs" |} b_renamed_to_c
    (_EventHandler_dispatch {| eh_root := "/repo/pkgs" |} b_renamed_to_c
       warm_manager).1.2
  = (Returned tt,
     (_EventHandler_dispatch {| eh_root := "/repo/pkgs" |} b_renamed_to_c
        warm_manager).1.2,
     []).
Proof.
  split; [by repeat split|].
  apply (dispatch_twice warm_manager {| eh_root := "/repo/pkgs" |}
           b_renamed_to_c quiescent_warm_manager).
Defined.

(** ** X10 *)

Lemma idle_manager_never_blocks_witness :
  quiescent warm_manager ∧
  producer_comes_back (PkgFile := string)
    (Op_digest_file "/srv/wheels/d.whl" "md5" failing_digest) ∧
  came_back_after normal_str
    (Op_digest_file "/srv/wheels/d.whl" "md5" failing_digest) warm_manager
  = true.
Proof.
  split; [by repeat split|]. split; [by intros ? ?|].
  apply (idle_manager_never_blocks normal_str
           (Op_digest_file "/srv/wheels/d.whl" "md5" failing_digest)
           warm_manager quiescent_warm_manager).
  by intros ? ?.
Defined.

(** ** X11 *)

Lemma stuck_producer_holds_listdir_lock_witness :
  quiescent warm_manager ∧
  ∃ self' t,
    CacheManager_listdir normal_str (AsStr "/repo/extra") never_returns
      warm_manager = (Blocked, self', t) ∧
    listdir_lock_held self' = true ∧
    CacheManager_listdir normal_str (AsStr "/repo/pkgs") lists_own_name
      self' = (Blocked, self', []).
Proof.
  split; [by repeat split|].
  destruct (stuck_producer_holds_listdir_lock normal_str warm_manager
              (AsStr "/repo/extra") never_returns
              quiescent_warm_manager eq_refl eq_refl)
    as (self' & t & Hrun & Hheld & Hlistdir & _).
  exists self', t. split; [done|]. split; [done|]. apply Hlistdir.
Defined.

(** ** X12 *)

Lemma pkgs_is_watched : "/repo/pkgs" ∈ watched warm_manager.
Proof. cbn. by apply elem_of_singleton. Qed.

Lemma watched_directory_is_not_rescheduled_witness :
  quiescent warm_manager ∧
  "/repo/pkgs" ∈ watched warm_manager ∧
  ∃ res self',
    CacheManager_digest_file "/repo/pkgs/c.whl" "sha256" failing_digest
      warm_manager
    = (res, self', [Ev_digest "/repo/pkgs/c.whl" "sha256"]) ∧
    observer self' = observer warm_manager.
Proof.
  split; [by repeat split|]. split; [apply pkgs_is_watched|].
  destruct (watched_directory_is_not_rescheduled normal_str warm_manager
              "/repo/pkgs" quiescent_warm_manager pkgs_is_watched)
    as [_ Hdigest].
  destruct (Hdigest "/repo/pkgs/c.whl" "sha256" failing_digest
              eq_refl eq_refl) as (res & self' & Hrun & _ & Hobs).
  by exists res, self'.
Defined.

(** ** X13 *)

Lemma frozen_entry_is_lost_on_event_witness :
  quiescent frozen_manager ∧
  using_index_file frozen_manager = true ∧
  CacheFileManager_listdir normal_str (AsStr "/repo/pkgs") failing_listdir
    frozen_manager = (Returned (AsList ["A"; "B"]), frozen_manager, []) ∧
  CacheFileManager_listdir normal_str (AsStr "/repo/pkgs") failing_listdir
    (_EventHandler_dispatch {| eh_root := "/repo/pkgs" |} b_renamed_to_c
       frozen_manager).1.2
  = (Returned EmptyDict,
     (_EventHandler_dispatch {| eh_root := "/repo/pkgs" |} b_renamed_to_c
        frozen_manager).1.2,
     []).
Proof.
  split; [by repeat split|]. split; [reflexivity|]. split; [reflexivity|].
  assert (quiescent frozen_manager) as Hidle by (by repeat split).
  destruct (frozen_entry_is_lost_on_event normal_str frozen_manager
              Hidle eq_refl) as [_ Hlost].
  apply (Hlost {| eh_root := "/repo/pkgs" |} b_renamed_to_c failing_listdir).
  reflexivity.
Defined.

(** ** X14 *)

Lemma get_listdir_cache_lists_every_root_witness :
  listdir_lock_held (@new_manager string) = false ∧
  ∃ self',
    get_listdir_cache normal_str [mkPath "/repo/a"; mkPath "/repo/b"]
      lists_own_name new_manager
    = (Returned tt, self',
       [Ev_listdir (mkPath "/repo/a"); Ev_listdir (mkPath "/repo/b")]) ∧
    listdir_cache self' !! AsPath (mkPath "/repo/b") = Some ["/repo/b"].
Proof.
  split; [reflexivity|].
  destruct (get_listdir_cache_lists_every_root normal_str new_manager
              [mkPath "/repo/a"; mkPath "/repo/b"] lists_own_name eq_refl)
    as (self' & Hrun & Hin & _).
  { repeat constructor; by eexists. }
  exists self'. split; [done|].
  apply Hin; [|reflexivity]. right. by left.
Defined.

(** ** X15 *)

Lemma get_listdir_cache_stops_at_failure_witness :
  listdir_lock_held (@new_manager string) = false ∧
  fails_on_b (mkPath "/repo/b") = Raised (OSError "EIO") ∧
  ∃ self',
    get_listdir_cache normal_str
      [mkPath "/repo/a"; mkPath "/repo/b"; mkPath "/repo/c"]
      fails_on_b new_manager
    = (Raised (OSError "EIO"), self',
       [Ev_listdir (mkPath "/repo/a"); Ev_listdir (mkPath "/repo/b")]) ∧
    listdir_cache self' !! AsPath (mkPath "/repo/a") = Some ["/repo/a"] ∧
    listdir_cache self' !! AsPath (mkPath "/repo/c") = None.
Proof.
  split; [reflexivity|]. split; [reflexivity|].
  destruct (get_listdir_cache_stops_at_failure normal_str new_manager
              [mkPath "/repo/a"] (mkPath "/repo/b") [mkPath "/repo/c"]
              fails_on_b (OSError "EIO") eq_refl)
    as (self' & Hrun & Hin & Hother & _).
  { repeat constructor. by eexists. }
  { reflexivity. }
  exists self'. split; [done|]. split.
  - apply Hin; [by left|reflexivity].
  - rewrite Hother; [reflexivity|].
    intros r ->%list_elem_of_singleton. discriminate.
Defined.

(** ** X16 *)

Lemma main_writes_loadable_index_witness :
  (∀ d, toy_loads (toy_dumps d) = Some d) ∧
  ∃ fs',
    main normal_str toy_dumps toy_loads linux_stat_error toy_dump_fails
      host_with_watchdog ∅ [mkPath "/repo/pkgs"] lists_own_name
    = (Returned tt, fs', [Ev_listdir (mkPath "/repo/pkgs")]) ∧
    ∃ loaded,
      CacheFileManager___init__ toy_loads linux_stat_error
        host_with_watchdog fs'
        (Some (mkPath PKG_INDEX_FILE)) = Returned loaded ∧
      CacheFileManager_listdir normal_str (AsPath (mkPath "/repo/pkgs"))
        failing_listdir loaded
      = (Returned (AsList ["/repo/pkgs"]), loaded, []) ∧
      CacheFileManager_listdir normal_str (AsStr "/repo/pkgs")
        failing_listdir loaded
      = (Returned EmptyDict, loaded, []).
Proof.
  split; [reflexivity|].
  destruct (main_writes_loadable_index normal_str toy_dumps toy_loads
              linux_stat_error toy_dump_fails
              host_with_watchdog ∅ [mkPath "/repo/pkgs"] lists_own_name
              (λ d, eq_refl) eq_refl eq_refl)
    as (fs' & Hrun & _ & loaded & Hload & _ & Hpath & Hother).
  { repeat constructor. by eexists. }
  { by rewrite lookup_empty. }
  { reflexivity. }
  { reflexivity. }
  exists fs'. split; [done|]. exists loaded. split; [done|]. split.
  - apply Hpath; [by left|reflexivity].
  - apply Hother. intros r ->%list_elem_of_singleton. discriminate.
Defined.
